(** * astro: bulb-exposure capture sessions over a tethered camera

    A shallow embedding of [astro.go].  Pure functions ([Contains],
    [FindNew], [Status]) are Rocq functions.  The stateful part of the
    program (the [Camera] struct that every method mutates through its
    pointer receiver, the gphoto2 device behind it, standard output) is
    written in a small state monad whose state carries the struct, the
    external world and the trace of every external call the program has
    issued. *)

From Stdlib Require Import ZArith List String Ascii Bool Lia DecimalString PrimFloat.
Import ListNotations.
Local Open Scope string_scope.
Local Open Scope Z_scope.

(** ** Go data *)

(** Go's [int] on a 64-bit platform: two's complement, silent wrap-around. *)
Definition min_int : Z := - 2 ^ 63.
Definition max_int : Z := 2 ^ 63 - 1.
Definition wrap (z : Z) : Z := (z + 2 ^ 63) mod 2 ^ 64 - 2 ^ 63.
Definition in_int (z : Z) : Prop := min_int <= z <= max_int.

(** A Go [error] value is modelled by its message; [nil] is [None]. *)
Definition error := string.
Definition goerr := option error.

(** [gphoto2.CameraFilePath]: the fields [astro.go] reads are [Name], [Dir]
    and [Children]; [Folder] is the directory of the entry on the device. *)
#[warnings="-register-all"]
Inductive CameraFilePath : Type :=
  MkPath { Name : string; Folder : string; Dir : bool;
           Children : list CameraFilePath }.

(** [type CameraFiles []gphoto2.CameraFilePath] *)
Definition CameraFiles := list CameraFilePath.

(** The value of a setting arrives as an [interface{}]; the program asserts
    it to be a string. *)
Inductive value : Type :=
| VString (s : string)
| VOther.

(** [type Camera struct]; the device handle [camera] is the external world
    of the state below. *)
Record Camera : Type := MkCamera {
  Model : string;
  Lens : string;
  Battery : string;
  ISO : Z;
  Aperture : float;
  Shutter : string;
  Duration : Z;
  Frames : Z;
  Current : Z;
  Target : string;
  Kind : string;
  Keep : bool;
  Files : CameraFiles
}.

Definition set_Model (v : string) (c : Camera) : Camera :=
  MkCamera v (Lens c) (Battery c) (ISO c) (Aperture c) (Shutter c)
    (Duration c) (Frames c) (Current c) (Target c) (Kind c) (Keep c) (Files c).

Definition set_Lens (v : string) (c : Camera) : Camera :=
  MkCamera (Model c) v (Battery c) (ISO c) (Aperture c) (Shutter c)
    (Duration c) (Frames c) (Current c) (Target c) (Kind c) (Keep c) (Files c).

Definition set_Battery (v : string) (c : Camera) : Camera :=
  MkCamera (Model c) (Lens c) v (ISO c) (Aperture c) (Shutter c)
    (Duration c) (Frames c) (Current c) (Target c) (Kind c) (Keep c) (Files c).

Definition set_Keep (v : bool) (c : Camera) : Camera :=
  MkCamera (Model c) (Lens c) (Battery c) (ISO c) (Aperture c) (Shutter c)
    (Duration c) (Frames c) (Current c) (Target c) (Kind c) v (Files c).

Definition set_Files (v : CameraFiles) (c : Camera) : Camera :=
  MkCamera (Model c) (Lens c) (Battery c) (ISO c) (Aperture c) (Shutter c)
    (Duration c) (Frames c) (Current c) (Target c) (Kind c) (Keep c) v.

Definition EosRemoteRelease : string := "eosremoterelease".
Definition BatteryLevel : string := "batterylevel".

(** ** Formatting ([fmt], [strconv]) *)

Definition LF : string := String (ascii_of_nat 10) EmptyString.
Definition CR : string := String (ascii_of_nat 13) EmptyString.

(** [%d] and [strconv.Itoa] *)
Definition Itoa (z : Z) : string := NilZero.string_of_int (Z.to_int z).

Fixpoint spaces (n : nat) : string :=
  match n with
  | O => EmptyString
  | S k => String " " (spaces k)
  end.

(** [%3d]: right-justified in a field of at least three characters. *)
Definition fmt_3d (z : Z) : string :=
  let s := Itoa z in spaces (3 - String.length s) ++ s.

(** ** Manifest reconciliation *)

(** [func (c CameraFiles) Contains(file) bool] *)
Fixpoint Contains (c : CameraFiles) (file : CameraFilePath) : bool :=
  match c with
  | [] => false
  | f :: rest => if String.eqb (Name f) (Name file) then true else Contains rest file
  end.

(** [func (c *CameraFiles) FindNew(files *CameraFiles) *CameraFiles]: the
    loop appends to [result], which starts empty. *)
Definition FindNew (c files : CameraFiles) : CameraFiles :=
  if Nat.eqb (List.length c) (List.length files) then []
  else fold_left
         (fun result newFile =>
            if negb (Contains c newFile) then (result ++ [newFile])%list else result)
         files [].

(** The four nested loops of [LoadCameraFiles] over the listing. *)
Definition walk (storage : list CameraFilePath) : CameraFiles :=
  flat_map (fun device =>
    flat_map (fun container =>
      flat_map (fun directory =>
        filter (fun file => negb (Dir file)) (Children directory))
        (Children container))
      (Children device))
    storage.

(** [func (c *Camera) Status(frame int, seconds int) string] *)
Definition Status (c : Camera) (frame seconds : Z) : string :=
  if Frames c =? 0 then
    "Capturing " ++ Kind c ++ " frame " ++ fmt_3d frame ++ "; "
      ++ fmt_3d seconds ++ " seconds remaining; battery: " ++ Battery c
  else
    "Capturing " ++ Kind c ++ " frame " ++ fmt_3d frame ++ "/" ++ Itoa (Frames c)
      ++ "; " ++ fmt_3d seconds ++ " seconds remaining; battery: " ++ Battery c.

(** ** The external world

    Everything the program reaches through [gphoto2], [os] and [strconv]:
    each operation reads and updates a world [D] and answers with the Go
    error (or value) the caller receives.  A setting handle is identified by
    the name it was obtained for; a destination stream by its path. *)
Record Gphoto2 (D : Type) : Type := MkGphoto2 {
  gphoto2_NewCamera : string -> D -> goerr * D;
  Camera_GetSetting : string -> D -> goerr * D;
  Widget_Get : string -> D -> (error + value) * D;
  Widget_Set : string -> string -> D -> goerr * D;
  Camera_ListFiles : D -> (error + list CameraFilePath) * D;
  Camera_Reset : D -> goerr * D;
  Camera_Exit : D -> goerr * D;
  Camera_Free : D -> goerr * D;
  File_DownloadImage : CameraFilePath -> string -> bool -> D -> goerr * D;
  os_Create : string -> D -> goerr * D;
  strconv_FormatFloat : float -> string
}.

Arguments gphoto2_NewCamera {D}.
Arguments Camera_GetSetting {D}.
Arguments Widget_Get {D}.
Arguments Widget_Set {D}.
Arguments Camera_ListFiles {D}.
Arguments Camera_Reset {D}.
Arguments Camera_Exit {D}.
Arguments Camera_Free {D}.
Arguments File_DownloadImage {D}.
Arguments os_Create {D}.
Arguments strconv_FormatFloat {D}.

(** One entry per external call, in program order, with its arguments and
    its answer.  [EvCaptureBulb] is a ghost entry written on entry of
    [CaptureBulb]; [EvNotify] stands for the installation of the interrupt
    handler. *)
Inductive Event : Type :=
| EvNewCamera (name : string) (r : goerr)
| EvGetSetting (name : string) (r : goerr)
| EvGet (name : string) (r : error + value)
| EvSet (name v : string) (r : goerr)
| EvListFiles (r : error + list CameraFilePath)
| EvReset (r : goerr)
| EvExit (r : goerr)
| EvFree (r : goerr)
| EvCreate (path : string) (r : goerr)
| EvDownload (file : CameraFilePath) (dest : string) (leaveOnCamera : bool) (r : goerr)
| EvClose (path : string)
| EvSleep (ns : Z)
| EvStdout (s : string)
| EvStderr (s : string)
| EvNotify
| EvCaptureBulb (frame : Z).

(** How a computation ends: it returns, the process terminates with an exit
    status ([os.Exit], [log.Fatal], a panic), or the model ran out of fuel. *)
Inductive res (A : Type) : Type :=
| Val (a : A)
| Halt (code : Z)
| OutOfFuel.

Arguments Val {A}.
Arguments Halt {A}.
Arguments OutOfFuel {A}.

Record St (D : Type) : Type := MkSt {
  cam : Camera;
  dev : D;
  trace : list Event
}.

Arguments MkSt {D}.
Arguments cam {D}.
Arguments dev {D}.
Arguments trace {D}.

Definition M (D A : Type) : Type := St D -> res A * St D.

Definition ret {D A} (a : A) : M D A := fun st => (Val a, st).

Definition bind {D A B} (m : M D A) (k : A -> M D B) : M D B :=
  fun st =>
    match m st with
    | (Val a, st') => k a st'
    | (Halt code, st') => (Halt code, st')
    | (OutOfFuel, st') => (OutOfFuel, st')
    end.

Declare Scope go_scope.
Delimit Scope go_scope with go.
Notation "x <- m ;; k" := (bind m (fun x => k))
  (at level 61, m at next level, right associativity) : go_scope.
Notation "m ;; k" := (bind m (fun _ => k))
  (at level 61, right associativity) : go_scope.
Local Open Scope go_scope.

(** Read a field of the struct, or a pure function of it. *)
Definition gets {D A} (f : Camera -> A) : M D A := fun st => (Val (f (cam st)), st).

(** Run a computation that depends on the current value of the struct. *)
Definition with_cam {D A} (m : Camera -> M D A) : M D A := fun st => m (cam st) st.

(** Assign to the struct. *)
Definition modify {D} (f : Camera -> Camera) : M D unit :=
  fun st => (Val tt, MkSt (f (cam st)) (dev st) (trace st)).

(** Append to the trace. *)
Definition emit {D} (e : Event) : M D unit :=
  fun st => (Val tt, MkSt (cam st) (dev st) (trace st ++ [e])).

(** An external call: the world answers, the call is recorded. *)
Definition call {D A} (op : D -> A * D) (ev : A -> Event) : M D A :=
  fun st =>
    let (a, d) := op (dev st) in
    (Val a, MkSt (cam st) d (trace st ++ [ev a])).

Definition halt {D A} (code : Z) : M D A := fun st => (Halt code, st).

(** The model's bound on loop iterations is exhausted. *)
Definition out_of_fuel {D A} : M D A := fun st => (OutOfFuel, st).

(** [os.Exit(code)] *)
Definition os_Exit {D A} (code : Z) : M D A := halt code.

(** [log.Fatal(err)]: the message on standard error, then [os.Exit(1)]. *)
Definition log_Fatal {D A} (err : error) : M D A :=
  emit (EvStderr err) ;; os_Exit 1.

(** A failed type assertion [v.(string)]: the Go runtime reports the panic
    and exits with status 2. *)
Definition panic {D A} (msg : string) : M D A :=
  emit (EvStderr ("panic: " ++ msg)) ;; halt 2.

Definition Printf {D} (s : string) : M D unit := emit (EvStdout s).

Definition Sleep {D} (ns : Z) : M D unit := emit (EvSleep ns).

Fixpoint emit_all {D} (es : list Event) : M D unit :=
  match es with
  | [] => ret tt
  | e :: rest => emit e ;; emit_all rest
  end.

(** [left = d, d-1, ..., 1] *)
Definition countdown (d : Z) : list Z :=
  map (fun i => d - Z.of_nat i) (seq 0 (Z.to_nat d)).

Section Program.

Context {D : Type} (gp : Gphoto2 D).

(** [func (c *CameraFiles) LoadCameraFiles(camera) error], with the list it
    appends to passed in and handed back. *)
Definition LoadCameraFiles (c : CameraFiles) : M D (CameraFiles * goerr) :=
  r <- call (Camera_ListFiles gp) EvListFiles ;;
  match r with
  | inl err => ret (c, Some err)
  | inr storage => ret ((c ++ walk storage)%list, None)
  end.

(** [func (c *Camera) SetConfig(CameraSetting string, value string) error] *)
Definition SetConfig (CameraSetting v : string) : M D goerr :=
  err <- call (Camera_GetSetting gp CameraSetting) (EvGetSetting CameraSetting) ;;
  match err with
  | Some e => ret (Some e)
  | None =>
      err <- call (Widget_Set gp CameraSetting v) (EvSet CameraSetting v) ;;
      match err with
      | Some e => ret (Some e)
      | None => ret None
      end
  end.

(** Read a setting and assert its value to be a string: the pair
    [GetSetting]/[Get] followed by [v.(string)]. *)
Definition GetBatteryStatus : M D (string * goerr) :=
  err <- call (Camera_GetSetting gp BatteryLevel) (EvGetSetting BatteryLevel) ;;
  match err with
  | Some e => ret ("", Some e)
  | None =>
      r <- call (Widget_Get gp BatteryLevel) (EvGet BatteryLevel) ;;
      match r with
      | inl e => ret ("", Some e)
      | inr (VString s) => ret (s, None)
      | inr VOther => panic "interface conversion: interface {} is not string"
      end
  end.

(** The [go func()] of [CaptureBulb]: one status line per remaining second.
    Its lines are placed where the goroutine is started; the interleaving
    with what the main flow prints later is not modelled. *)
Definition reporter (frame : Z) : M D unit :=
  with_cam (fun c =>
    emit_all (map (fun left => EvStdout (Status c frame left ++ CR))
                  (countdown (Duration c)))).

(** The deferred [fh.Close()] calls, newest first. *)
Definition run_defers (opened : list string) : M D unit :=
  emit_all (map EvClose opened).

(** The download loop of [CaptureBulb] and its [return]s. *)
Fixpoint download (newFiles : list CameraFilePath) (opened : list string) : M D goerr :=
  match newFiles with
  | [] => run_defers opened ;; ret None
  | file :: rest =>
      path <- gets (fun c => Target c ++ "/" ++ Kind c ++ "/" ++ Name file) ;;
      err <- call (os_Create gp path) (EvCreate path) ;;
      match err with
      | Some e => run_defers opened ;; ret (Some e)
      | None =>
          err <- call (File_DownloadImage gp file path false)
                      (EvDownload file path false) ;;
          match err with
          | Some e => run_defers (path :: opened) ;; ret (Some e)
          | None => download rest (path :: opened)
          end
      end
  end.

(** [func (c *Camera) CaptureBulb(frame int) error] *)
Definition CaptureBulb (frame : Z) : M D goerr :=
  emit (EvCaptureBulb frame) ;;
  be <- GetBatteryStatus ;;
  match snd be with
  | Some e => ret (Some e)
  | None =>
      modify (set_Battery (fst be)) ;;
      err <- SetConfig EosRemoteRelease "Immediate" ;;
      match err with
      | Some e => ret (Some e)
      | None =>
          reporter frame ;;
          d <- gets Duration ;;
          Sleep (wrap (wrap (1000000000 * d) + 100000000)) ;;
          err <- SetConfig EosRemoteRelease "Release Full" ;;
          match err with
          | Some e => ret (Some e)
          | None =>
              Sleep 2000000000 ;;
              err <- call (Camera_Reset gp) EvReset ;;
              match err with
              | Some e => ret (Some e)
              | None =>
                  fe <- LoadCameraFiles [] ;;
                  match snd fe with
                  | Some e => ret (Some e)
                  | None =>
                      baseline <- gets Files ;;
                      download (FindNew baseline (fst fe)) []
                  end
              end
          end
      end
  end.

(** [func (c *Camera) Close() error] *)
Definition Close : M D goerr :=
  err <- call (Camera_Exit gp) EvExit ;;
  match err with
  | Some e => ret (Some e)
  | None =>
      err <- call (Camera_Free gp) EvFree ;;
      match err with
      | Some e => ret (Some e)
      | None => ret None
      end
  end.

(** One [SetConfig] step of [Init]: on failure print ["Error!\n"] and wrap
    the error with the setting's name; [tail] is the ["\n"] some of the
    wrappers add. *)
Definition Init_SetConfig (setting v tail : string) (k : M D goerr) : M D goerr :=
  err <- SetConfig setting v ;;
  match err with
  | Some e =>
      Printf ("Error!" ++ LF) ;;
      ret (Some ("Init(" ++ setting ++ "): " ++ e ++ tail))
  | None => k
  end.

(** One [GetSetting]/[Get]/[.(string)] step of [Init]. *)
Definition Init_GetString (setting short : string) (k : string -> M D goerr) : M D goerr :=
  err <- call (Camera_GetSetting gp setting) (EvGetSetting setting) ;;
  match err with
  | Some e => ret (Some ("Init(" ++ setting ++ "): " ++ e ++ LF))
  | None =>
      r <- call (Widget_Get gp setting) (EvGet setting) ;;
      match r with
      | inl e => ret (Some ("Init(" ++ short ++ "): " ++ e ++ LF))
      | inr (VString s) => k s
      | inr VOther => panic "interface conversion: interface {} is not string"
      end
  end.

(** [func (c *Camera) Init(name string) (err error)] *)
Definition Init (name : string) : M D goerr :=
  err <- call (gphoto2_NewCamera gp name) (EvNewCamera name) ;;
  match err with
  | Some e => ret (Some e)
  | None =>
      Init_GetString "cameramodel" "model" (fun modelStr =>
      modify (set_Model modelStr) ;;
      Init_GetString "lensname" "lens" (fun lensStr =>
      modify (set_Lens lensStr) ;;
      files <- gets Files ;;
      fe <- LoadCameraFiles files ;;
      match snd fe with
      | Some e => ret (Some e)
      | None =>
          modify (set_Files (fst fe)) ;;
          model <- gets Model ;;
          Printf ("Initializing camera: " ++ model ++ "... ") ;;
          Init_SetConfig "focusmode" "Manual" "" (
          shutter <- gets Shutter ;;
          Init_SetConfig "shutterspeed" shutter "" (
          iso <- gets ISO ;;
          Init_SetConfig "iso" (Itoa iso) "" (
          Init_SetConfig "whitebalance" "Daylight" "" (
          Init_SetConfig "imageformat" "RAW" "" (
          aperture <- gets Aperture ;;
          Init_SetConfig "aperture" (strconv_FormatFloat gp aperture) "" (
          Init_SetConfig "capturetarget" "Memory card" LF (
          be <- GetBatteryStatus ;;
          match snd be with
          | Some e =>
              Printf ("Error!" ++ LF) ;;
              ret (Some ("Init(batterylevel): " ++ e ++ LF))
          | None =>
              modify (set_Battery (fst be)) ;;
              Printf ("Done." ++ LF) ;;
              ret None
          end)))))))
      end))
  end.

(** The [for] loop of [CaptureLoop] from loop variable [frame] on; one unit
    of fuel per execution of the body. *)
Fixpoint CaptureLoop_for (fuel : nat) (frame : Z) : M D goerr :=
  frames <- gets Frames ;;
  if (frames =? 0) || (frame <? frames) then
    match fuel with
    | O => out_of_fuel
    | S fuel' =>
        err <- CaptureBulb (wrap (frame + 1)) ;;
        match err with
        | Some e => ret (Some e)
        | None => CaptureLoop_for fuel' (wrap (frame + 1))
        end
    end
  else
    Printf (LF ++ LF ++ "Frames capture complete." ++ LF) ;;
    ret None.

(** [func (c *Camera) CaptureLoop() error] *)
Definition CaptureLoop (fuel : nat) : M D goerr := CaptureLoop_for fuel 0.

(** The goroutine [main] starts for [os.Interrupt]: the body of its
    [for _ = range c], run when a signal is delivered. *)
Definition main_interrupt : M D unit :=
  _ <- SetConfig EosRemoteRelease "Release Full" ;;
  os_Exit 1.

(** [func main()], after [flag.Parse] has filled the struct; returning from
    it ends the process with status 0. *)
Definition main (fuel : nat) (cameraName : string) : M D unit :=
  kind <- gets Kind ;;
  if negb (kind =? "lights")%string && negb (kind =? "darks")%string then
    Printf ("Bad 'kind' option: " ++ kind
              ++ " (must be either 'lights' or 'darks'") ;;
    ret tt
  else
    total <- gets (fun c => wrap (Frames c * Duration c)) ;;
    if total >? 28800 then
      Printf ("Specified shooting time is longer than 8 hours, aborting." ++ LF) ;;
      ret tt
    else
      err <- Init cameraName ;;
      match err with
      | Some e => log_Fatal e
      | None =>
          model <- gets Model ;;
          Printf ("Camera Model:  " ++ model ++ LF) ;;
          lens <- gets Lens ;;
          Printf ("Lens Model:    " ++ lens ++ LF) ;;
          files <- gets Files ;;
          Printf ("SD Card Files: " ++ Itoa (Z.of_nat (List.length files)) ++ LF) ;;
          battery <- gets Battery ;;
          Printf ("Battery Level: " ++ battery ++ LF ++ LF) ;;
          emit EvNotify ;;
          err <- CaptureLoop fuel ;;
          match err with
          | Some e => log_Fatal e
          | None =>
              err <- Close ;;
              match err with
              | Some e => log_Fatal e
              | None => ret tt
              end
          end
      end.

End Program.

(** The exit status of the process, when it ends. *)
Definition exit_status {A} (r : res A) : option Z :=
  match r with
  | Val _ => Some 0
  | Halt code => Some code
  | OutOfFuel => None
  end.

(** ** Reading a trace *)

(** Commands sent to the device (as opposed to local files, the terminal,
    timers and ghost entries). *)
Definition is_device_command (e : Event) : bool :=
  match e with
  | EvNewCamera _ _ | EvGetSetting _ _ | EvGet _ _ | EvSet _ _ _
  | EvListFiles _ | EvReset _ | EvExit _ | EvFree _ | EvDownload _ _ _ _ => true
  | _ => false
  end.

Definition device_commands (tr : list Event) : list Event :=
  filter is_device_command tr.

(** The frame indices [CaptureBulb] was invoked with, oldest first. *)
Fixpoint calls (tr : list Event) : list Z :=
  match tr with
  | [] => []
  | EvCaptureBulb frame :: rest => frame :: calls rest
  | _ :: rest => calls rest
  end.

(** The manifests obtained by the listings that succeeded, oldest first. *)
Fixpoint listings (tr : list Event) : list CameraFiles :=
  match tr with
  | [] => []
  | EvListFiles (inr storage) :: rest => walk storage :: listings rest
  | _ :: rest => listings rest
  end.

Definition last_listing (tr : list Event) : option CameraFiles :=
  last (map Some (listings tr)) None.

(** The files whose transfer completed, oldest first. *)
Fixpoint downloaded (tr : list Event) : list CameraFilePath :=
  match tr with
  | [] => []
  | EvDownload file _ _ None :: rest => file :: downloaded rest
  | _ :: rest => downloaded rest
  end.

(** Entries that are neither ghost entries, listings nor downloads. *)
Definition quiet (e : Event) : bool :=
  match e with
  | EvCaptureBulb _ | EvListFiles _ | EvDownload _ _ _ _ => false
  | _ => true
  end.

(** Entries other than the ghost one; a download among them asks for the
    file not to be left on the camera. *)
Definition regular (e : Event) : bool :=
  match e with
  | EvCaptureBulb _ => false
  | EvDownload _ _ leaveOnCamera _ => negb leaveOnCamera
  | _ => true
  end.

Definition download_not_left (e : Event) : bool :=
  match e with
  | EvDownload _ _ leaveOnCamera _ => negb leaveOnCamera
  | _ => true
  end.

(** [1; 2; ...; n] *)
Definition frames_upto (n : Z) : list Z :=
  map (fun i => Z.of_nat i + 1) (seq 0 (Z.to_nat n)).

(** Two states that differ at most in the [Keep] field. *)
Definition with_Keep {D} (b : bool) (st : St D) : St D :=
  MkSt (set_Keep b (cam st)) (dev st) (trace st).

(** ** A simulated camera

    A card holding [card]; releasing the shutter writes one new frame;
    [exit_fails] makes [Exit] fail.  The last argument of the binding's
    [DownloadImage] says whether the file is to be left on the camera; the
    program always passes [false], and the help text of its [-keep] flag
    reads "Keep files on the camera after download (default: remove files)".
    A camera with [removes] set honours the request and removes the file
    after the transfer; one without keeps every file. *)
Record Sim : Type := MkSim {
  card : list CameraFilePath;
  shots : Z;
  removes : bool;
  exit_fails : bool
}.

Definition sim_folder : string := "/store_00020001/DCIM/100CANON".

Definition sim_frame (n : Z) : CameraFilePath :=
  MkPath ("IMG_" ++ Itoa n ++ ".CR2") sim_folder false [].

Definition sim_storage (files : list CameraFilePath) : list CameraFilePath :=
  [MkPath "store_00020001" "/" true
     [MkPath "DCIM" "/store_00020001" true
        [MkPath "100CANON" "/store_00020001/DCIM" true files]]].

Definition sim_Set (name v : string) (d : Sim) : goerr * Sim :=
  if String.eqb name EosRemoteRelease && String.eqb v "Release Full" then
    (None, MkSim (card d ++ [sim_frame (shots d + 1)]) (shots d + 1)
                 (removes d) (exit_fails d))
  else (None, d).

Definition sim_Download (file : CameraFilePath) (dest : string)
    (leaveOnCamera : bool) (d : Sim) : goerr * Sim :=
  if negb leaveOnCamera && removes d then
    (None, MkSim (filter (fun f => negb (String.eqb (Name f) (Name file))) (card d))
                 (shots d) (removes d) (exit_fails d))
  else (None, d).

Definition sim : Gphoto2 Sim :=
  MkGphoto2 Sim
    (fun _ d => (None, d))
    (fun _ d => (None, d))
    (fun name d => (inr (VString (if String.eqb name BatteryLevel then "75%" else name)), d))
    sim_Set
    (fun d => (inr (sim_storage (card d)), d))
    (fun d => (None, d))
    (fun d => (if exit_fails d then Some "could not exit" else None, d))
    (fun d => (None, d))
    sim_Download
    (fun _ d => (None, d))
    (fun _ => "2.8").

(** The struct as [main] finds it after [flag.Parse]. *)
Definition flags (frames duration : Z) (kind : string) (keep : bool) : Camera :=
  MkCamera "" "" "" 800 0x1.6666666666666p+1%float "bulb" duration frames 0
           "/tmp/target" kind keep [].

Definition start {D} (c : Camera) (d : D) : St D := MkSt c d [].

Definition sim_empty (rm ef : bool) : Sim := MkSim [] 0 rm ef.

(** A two-frame session on the simulated camera: before cycle [k] the card
    is empty again and [k - 1] frames have been shot. *)
Definition sim_session (k : Z) (c : Camera) (d : Sim) : Prop :=
  c = set_Battery "75%" (set_Lens "lensname" (set_Model "cameramodel"
        (flags 2 1 "lights" false)))
  /\ d = MkSim [] (k - 1) true false.

(** ** Properties of computations *)

(** [steps okE okC st st']: [st'] extends the trace of [st] by entries that
    satisfy [okE], and the struct moved along [okC]. *)
Definition steps {D} (okE : Event -> bool) (okC : Camera -> Camera -> Prop)
    (st st' : St D) : Prop :=
  (exists l, trace st' = (trace st ++ l)%list /\ forallb okE l = true)
  /\ okC (cam st) (cam st').

Definition Post {D A} (okE : Event -> bool) (okC : Camera -> Camera -> Prop)
    (m : M D A) : Prop :=
  forall st, steps okE okC st (snd (m st)).

(** [NI m]: [m] neither reads nor writes [Keep]. *)
Definition NI {D A} (m : M D A) : Prop :=
  forall b st, m (with_Keep b st) = (fst (m st), with_Keep b (snd (m st))).

Definition anyC (c c' : Camera) : Prop := True.

(** At most [Battery] differs. *)
Definition same_but_Battery (c c' : Camera) : Prop :=
  c' = set_Battery (Battery c') c.

(** [Frames] is not assigned. *)
Definition same_Frames (c c' : Camera) : Prop := Frames c' = Frames c.

Definition names_disjoint (A B : CameraFiles) : Prop :=
  forall a b, In a A -> In b B -> Name a <> Name b.

(** ** Further readings of a trace *)

(** The destination of a downloaded file: [<target>/<kind>/<name>]. *)
Definition dest (c : Camera) (file : CameraFilePath) : string :=
  Target c ++ "/" ++ Kind c ++ "/" ++ Name file.

(** The local files that were created, oldest first, and the ones that were
    closed, in the order of the closes. *)
Fixpoint created (tr : list Event) : list string :=
  match tr with
  | [] => []
  | EvCreate path None :: rest => path :: created rest
  | _ :: rest => created rest
  end.

Fixpoint closed (tr : list Event) : list string :=
  match tr with
  | [] => []
  | EvClose path :: rest => path :: closed rest
  | _ :: rest => closed rest
  end.

(** The settings that were written, with their values, oldest first. *)
Fixpoint settings_written (tr : list Event) : list (string * string) :=
  match tr with
  | [] => []
  | EvSet name v None :: rest => (name, v) :: settings_written rest
  | _ :: rest => settings_written rest
  end.

(** The state of the shutter after a trace: a successful write of
    "Immediate" to the remote release opens it, a successful write of
    "Release Full" closes it. *)
Definition shutter_step (open : bool) (e : Event) : bool :=
  match e with
  | EvSet name v None =>
      if String.eqb name EosRemoteRelease then
        if String.eqb v "Immediate" then true
        else if String.eqb v "Release Full" then false
        else open
      else open
  | _ => open
  end.

Definition shutter (open : bool) (tr : list Event) : bool :=
  fold_left shutter_step tr open.

(** Entries that write no setting. *)
Definition writes_nothing (e : Event) : bool :=
  match e with
  | EvSet _ _ _ => false
  | _ => true
  end.



(** No camera is connected. *)
Definition sim_absent : Gphoto2 Sim :=
  MkGphoto2 Sim
    (fun _ d => (Some "no camera found", d))
    (Camera_GetSetting sim) (Widget_Get sim) (Widget_Set sim)
    (Camera_ListFiles sim) (Camera_Reset sim)
    (Camera_Exit sim) (Camera_Free sim) (File_DownloadImage sim)
    (os_Create sim) (strconv_FormatFloat sim).

(** A camera on which writing "Release Full" fails once a frame has been
    shot. *)
Definition sim_wears_out : Gphoto2 Sim :=
  MkGphoto2 Sim
    (gphoto2_NewCamera sim) (Camera_GetSetting sim) (Widget_Get sim)
    (fun name v d =>
       if String.eqb name EosRemoteRelease && String.eqb v "Release Full"
          && (1 <=? shots d)
       then (Some "busy", d) else Widget_Set sim name v d)
    (Camera_ListFiles sim) (Camera_Reset sim)
    (Camera_Exit sim) (Camera_Free sim) (File_DownloadImage sim)
    (os_Create sim) (strconv_FormatFloat sim).

(** What a successful [Init] appends, given what the device answered
    with: the model, the lens, the listing and the battery level. *)
Definition Init_events {D} (gp : Gphoto2 D) (c : Camera) (name model lens : string)
    (storage : list CameraFilePath) (battery : string) : list Event :=
  [EvNewCamera name None;
   EvGetSetting "cameramodel" None; EvGet "cameramodel" (inr (VString model));
   EvGetSetting "lensname" None; EvGet "lensname" (inr (VString lens));
   EvListFiles (inr storage);
   EvStdout ("Initializing camera: " ++ model ++ "... ");
   EvGetSetting "focusmode" None; EvSet "focusmode" "Manual" None;
   EvGetSetting "shutterspeed" None; EvSet "shutterspeed" (Shutter c) None;
   EvGetSetting "iso" None; EvSet "iso" (Itoa (ISO c)) None;
   EvGetSetting "whitebalance" None; EvSet "whitebalance" "Daylight" None;
   EvGetSetting "imageformat" None; EvSet "imageformat" "RAW" None;
   EvGetSetting "aperture" None;
   EvSet "aperture" (strconv_FormatFloat gp (Aperture c)) None;
   EvGetSetting "capturetarget" None; EvSet "capturetarget" "Memory card" None;
   EvGetSetting BatteryLevel None; EvGet BatteryLevel (inr (VString battery));
   EvStdout ("Done." ++ LF)].

Definition any_event (e : Event) : bool := true.


(** What [main] appends between a successful [Init] and the capture loop:
    the four lines about the camera and the installation of the interrupt
    handler; and the state in which it then starts the loop. *)
Definition info_events (c : Camera) : list Event :=
  [EvStdout ("Camera Model:  " ++ Model c ++ LF);
   EvStdout ("Lens Model:    " ++ Lens c ++ LF);
   EvStdout ("SD Card Files: " ++ Itoa (Z.of_nat (List.length (Files c))) ++ LF);
   EvStdout ("Battery Level: " ++ Battery c ++ LF ++ LF);
   EvNotify].

Definition session_start {D} (st1 : St D) : St D :=
  MkSt (cam st1) (dev st1) (trace st1 ++ info_events (cam st1)).

(** The fields that come from the command line. *)
Definition same_config (c c' : Camera) : Prop :=
  ISO c' = ISO c /\ Aperture c' = Aperture c /\ Shutter c' = Shutter c
  /\ Duration c' = Duration c /\ Frames c' = Frames c /\ Current c' = Current c
  /\ Target c' = Target c /\ Kind c' = Kind c /\ Keep c' = Keep c.

(** A camera whose battery level is not a string. *)
Definition sim_odd_battery : Gphoto2 Sim :=
  MkGphoto2 Sim
    (gphoto2_NewCamera sim) (Camera_GetSetting sim)
    (fun name d => (inr (if String.eqb name BatteryLevel then VOther
                         else VString name), d))
    (Widget_Set sim) (Camera_ListFiles sim) (Camera_Reset sim)
    (Camera_Exit sim) (Camera_Free sim) (File_DownloadImage sim)
    (os_Create sim) (strconv_FormatFloat sim).

(** A camera on which writing "Release Full" fails. *)
Definition sim_stuck_release : Gphoto2 Sim :=
  MkGphoto2 Sim
    (gphoto2_NewCamera sim) (Camera_GetSetting sim) (Widget_Get sim)
    (fun name v d =>
       if String.eqb name EosRemoteRelease && String.eqb v "Release Full"
       then (Some "busy", d) else Widget_Set sim name v d)
    (Camera_ListFiles sim) (Camera_Reset sim)
    (Camera_Exit sim) (Camera_Free sim) (File_DownloadImage sim)
    (os_Create sim) (strconv_FormatFloat sim).

(** * Manifest reconciliation: proofs *)

Lemma FindNew_loop (c files acc : CameraFiles) :
  fold_left
    (fun result newFile =>
       if negb (Contains c newFile) then (result ++ [newFile])%list else result)
    files acc
  = (acc ++ filter (fun f => negb (Contains c f)) files)%list.
Proof.
  revert acc. induction files as [|f files IH]; intros acc; simpl.
  - now rewrite app_nil_r.
  - rewrite IH. destruct (Contains c f); simpl; [reflexivity|].
    now rewrite <- app_assoc.
Qed.

Lemma FindNew_unequal (c files : CameraFiles) :
  List.length c <> List.length files ->
  FindNew c files = filter (fun f => negb (Contains c f)) files.
Proof.
  intros H. unfold FindNew.
  destruct (Nat.eqb_spec (List.length c) (List.length files)); [contradiction|].
  apply FindNew_loop.
Qed.

Lemma Contains_true (c : CameraFiles) (file : CameraFilePath) :
  Contains c file = true <-> exists f, In f c /\ Name f = Name file.
Proof.
  induction c as [|g c IH]; simpl.
  - split; [discriminate | intros (f & [] & _)].
  - destruct (String.eqb_spec (Name g) (Name file)) as [E|E].
    + split; [intros _; exists g; auto | reflexivity].
    + rewrite IH. split.
      * intros (f & Hin & Hn). exists f; auto.
      * intros (f & [->|Hin] & Hn); [contradiction | exists f; auto].
Qed.

Lemma filter_disjoint (A B : CameraFiles) :
  names_disjoint A B -> filter (fun f => negb (Contains A f)) B = B.
Proof.
  intros H. induction B as [|b B IH]; simpl; [reflexivity|].
  destruct (Contains A b) eqn:E.
  - apply Contains_true in E. destruct E as (a & Hin & Hn).
    exfalso. apply (H a b Hin (or_introl eq_refl) Hn).
  - simpl. f_equal. apply IH. intros a b' Ha Hb. apply H; simpl; auto.
Qed.

Lemma FindNew_equal_length (c files : CameraFiles) :
  List.length c = List.length files -> FindNew c files = [].
Proof. intros H. unfold FindNew. now rewrite H, Nat.eqb_refl. Qed.

(** C9: reconciling a manifest with itself yields nothing. *)
Theorem FindNew_self (M : CameraFiles) : FindNew M M = [].
Proof. unfold FindNew. now rewrite Nat.eqb_refl. Qed.

(** C4: when both manifests have the same length the result is empty,
    whatever the names. *)
Theorem FindNew_same_length (A B : CameraFiles) :
  List.length A = List.length B -> FindNew A B = [].
Proof. exact (FindNew_equal_length A B). Qed.

Lemma FindNew_same_length_witness :
  List.length [sim_frame 1; sim_frame 2] = List.length [sim_frame 3; sim_frame 4]
  /\ FindNew [sim_frame 1; sim_frame 2] [sim_frame 3; sim_frame 4] = [].
Proof.
  split; [reflexivity|].
  apply (FindNew_same_length [sim_frame 1; sim_frame 2] [sim_frame 3; sim_frame 4]).
  reflexivity.
Defined.

(** C2, as stated, fails: two one-element manifests with different names
    are disjoint, yet the equal-length test returns the empty manifest. *)
Lemma FindNew_disjoint_counterexample :
  names_disjoint [sim_frame 1] [sim_frame 2]
  /\ FindNew [sim_frame 1] [sim_frame 2] <> [sim_frame 2].
Proof.
  split.
  - intros a b [<-|[]] [<-|[]]. vm_compute. discriminate.
  - vm_compute. discriminate.
Qed.

(** C2, amended: for manifests with disjoint names, [FindNew A B] is [B]
    (every record, in the order of [B]) exactly when the lengths differ or
    [B] is empty. *)
Theorem FindNew_disjoint (A B : CameraFiles) :
  names_disjoint A B ->
  (FindNew A B = B <-> List.length A <> List.length B \/ B = []).
Proof.
  intros H. destruct (Nat.eq_dec (List.length A) (List.length B)) as [E|E].
  - rewrite (FindNew_equal_length A B E). split.
    + intros <-. now right.
    + intros [H'|H']; [contradiction | now symmetry].
  - rewrite (FindNew_unequal A B E), (filter_disjoint A B H). tauto.
Qed.

Lemma FindNew_disjoint_witness :
  FindNew [sim_frame 1] [sim_frame 2; sim_frame 3] = [sim_frame 2; sim_frame 3]
  <-> List.length [sim_frame 1] <> List.length [sim_frame 2; sim_frame 3]
      \/ [sim_frame 2; sim_frame 3] = [].
Proof.
  apply (FindNew_disjoint [sim_frame 1] [sim_frame 2; sim_frame 3]).
  intros a b [<-|[]] [<-|[<-|[]]]; vm_compute; discriminate.
Defined.

(** * Status line: proofs *)

(** C5, as stated, fails: the seconds are printed with [%3d], so 45 is
    preceded by a padding space in addition to the one of the format. *)
Lemma Status_unbounded_counterexample :
  Status (set_Battery "75%" (flags 0 60 "lights" false)) 3 45
  <> "Capturing lights frame   3; 45 seconds remaining; battery: 75%".
Proof. vm_compute. discriminate. Qed.

(** C5, amended: for a session with target frame count 0, kind "lights" and
    battery "75%", the status line for frame 3 with 45 seconds remaining is
    [Capturing lights frame   3;  45 seconds remaining; battery: 75%]. *)
Theorem Status_unbounded (c : Camera) :
  Frames c = 0 -> Kind c = "lights" -> Battery c = "75%" ->
  Status c 3 45
  = "Capturing lights frame   3;  45 seconds remaining; battery: 75%".
Proof. intros HF HK HB. unfold Status. rewrite HF, HK, HB. reflexivity. Qed.

Lemma Status_unbounded_witness :
  Status (set_Battery "75%" (flags 0 60 "lights" false)) 3 45
  = "Capturing lights frame   3;  45 seconds remaining; battery: 75%".
Proof.
  apply (Status_unbounded (set_Battery "75%" (flags 0 60 "lights" false)));
    reflexivity.
Defined.

(** * Computations: generic rules *)

Section Rules.

Context {D : Type}.
Variable okE : Event -> bool.
Variable okC : Camera -> Camera -> Prop.
Hypothesis okC_refl : forall c, okC c c.
Hypothesis okC_trans : forall a b c, okC a b -> okC b c -> okC a c.

Lemma steps_refl (st : St D) : steps okE okC st st.
Proof.
  split; [|apply okC_refl]. exists []. now rewrite app_nil_r.
Qed.

Lemma steps_trans (a b c : St D) :
  steps okE okC a b -> steps okE okC b c -> steps okE okC a c.
Proof.
  intros [(l1 & E1 & F1) C1] [(l2 & E2 & F2) C2]. split; [|eauto].
  exists (l1 ++ l2)%list. rewrite E2, E1, app_assoc, forallb_app, F1, F2. auto.
Qed.

Lemma steps_event (st : St D) (c : Camera) (d : D) (e : Event) :
  okE e = true -> okC (cam st) c ->
  steps okE okC st (MkSt c d (trace st ++ [e])).
Proof.
  intros He Hc. split; [|exact Hc]. exists [e]. simpl. now rewrite He.
Qed.

Lemma Post_ret {A} (a : A) : Post okE okC (@ret D A a).
Proof. intros st. apply steps_refl. Qed.

Lemma Post_halt {A} (code : Z) : Post okE okC (@halt D A code).
Proof. intros st. apply steps_refl. Qed.

Lemma Post_fuel {A} : Post okE okC (@out_of_fuel D A).
Proof. intros st. apply steps_refl. Qed.

Lemma Post_gets {A} (f : Camera -> A) : Post okE okC (@gets D A f).
Proof. intros st. apply steps_refl. Qed.

Lemma Post_bind {A B} (m : M D A) (k : A -> M D B) :
  Post okE okC m -> (forall a, Post okE okC (k a)) -> Post okE okC (bind m k).
Proof.
  intros Hm Hk st. unfold bind. specialize (Hm st).
  destruct (m st) as [[a| |] st']; simpl in *; auto.
  eapply steps_trans; [exact Hm | apply Hk].
Qed.

Lemma Post_emit (e : Event) : okE e = true -> Post okE okC (@emit D e).
Proof. intros He st. apply steps_event; auto. Qed.

Lemma Post_call {A} (op : D -> A * D) (ev : A -> Event) :
  (forall a, okE (ev a) = true) -> Post okE okC (call op ev).
Proof.
  intros He st. unfold call. destruct (op (dev st)) as [a d]. simpl.
  apply steps_event; auto.
Qed.

Lemma Post_modify (f : Camera -> Camera) :
  (forall c, okC c (f c)) -> Post okE okC (@modify D f).
Proof.
  intros Hf st. split; [|apply Hf]. exists []. simpl. now rewrite app_nil_r.
Qed.

Lemma Post_emit_all (es : list Event) :
  forallb okE es = true -> Post okE okC (@emit_all D es).
Proof.
  induction es as [|e es IH]; simpl; intros H.
  - apply Post_ret.
  - apply andb_prop in H. destruct H as [He Hes].
    apply Post_bind; [apply Post_emit; exact He | intros _; apply IH; exact Hes].
Qed.

End Rules.

Lemma calls_app (l1 l2 : list Event) : calls (l1 ++ l2) = (calls l1 ++ calls l2)%list.
Proof.
  induction l1 as [|e l1 IH]; simpl; [reflexivity|].
  destruct e; simpl; rewrite ?IH; reflexivity.
Qed.

Lemma downloaded_app (l1 l2 : list Event) :
  downloaded (l1 ++ l2) = (downloaded l1 ++ downloaded l2)%list.
Proof.
  induction l1 as [|e l1 IH]; simpl; [reflexivity|].
  destruct e as [| | | | | | | | |f p b [x|]| | | | | |]; simpl; rewrite ?IH; reflexivity.
Qed.

Lemma listings_app (l1 l2 : list Event) :
  listings (l1 ++ l2) = (listings l1 ++ listings l2)%list.
Proof.
  induction l1 as [|e l1 IH]; simpl; [reflexivity|].
  destruct e as [| | | |[x|x]| | | | | | | | | | |]; simpl; rewrite ?IH; reflexivity.
Qed.

Lemma calls_regular (l : list Event) : forallb regular l = true -> calls l = [].
Proof.
  induction l as [|e l IH]; simpl; [reflexivity|].
  intros H. apply andb_prop in H. destruct H as [He Hl].
  destruct e; simpl in *; try discriminate; auto.
Qed.

Lemma steps_calls {D} (okC : Camera -> Camera -> Prop) (st st' : St D) :
  steps regular okC st st' -> calls (trace st') = calls (trace st).
Proof.
  intros [(l & E & F) _]. rewrite E, calls_app, (calls_regular l F).
  apply app_nil_r.
Qed.

(** * Keep: generic rules *)

Section KeepRules.

Context {D : Type}.

Lemma NI_ret {A} (a : A) : NI (@ret D A a).
Proof. intros b st. reflexivity. Qed.

Lemma NI_halt {A} (code : Z) : NI (@halt D A code).
Proof. intros b st. reflexivity. Qed.

Lemma NI_fuel {A} : NI (@out_of_fuel D A).
Proof. intros b st. reflexivity. Qed.

Lemma NI_gets {A} (f : Camera -> A) :
  (forall b c, f (set_Keep b c) = f c) -> NI (@gets D A f).
Proof. intros H b st. unfold gets. simpl. now rewrite H. Qed.

Lemma NI_modify (f : Camera -> Camera) :
  (forall b c, f (set_Keep b c) = set_Keep b (f c)) -> NI (@modify D f).
Proof. intros H b st. unfold modify, with_Keep. simpl. now rewrite H. Qed.

Lemma NI_emit (e : Event) : NI (@emit D e).
Proof. intros b st. reflexivity. Qed.

Lemma NI_call {A} (op : D -> A * D) (ev : A -> Event) : NI (call op ev).
Proof.
  intros b st. unfold call. simpl. destruct (op (dev st)) as [a d]. reflexivity.
Qed.

Lemma NI_bind {A B} (m : M D A) (k : A -> M D B) :
  NI m -> (forall a, NI (k a)) -> NI (bind m k).
Proof.
  intros Hm Hk b st. unfold bind. rewrite (Hm b st).
  destruct (m st) as [[a| |] st']; simpl; [apply Hk | reflexivity | reflexivity].
Qed.

Lemma NI_emit_all (es : list Event) : NI (@emit_all D es).
Proof.
  induction es as [|e es IH]; simpl.
  - apply NI_ret.
  - apply NI_bind; [apply NI_emit | intros _; exact IH].
Qed.

End KeepRules.

Lemma forallb_map_ok {A} (okE : Event -> bool) (f : A -> Event) (l : list A) :
  (forall a, okE (f a) = true) -> forallb okE (map f l) = true.
Proof.
  intros H. induction l as [|a l IH]; simpl; [reflexivity|]. now rewrite H, IH.
Qed.

Lemma Post_with_cam {D A} okE okC (m : Camera -> M D A) :
  (forall c, Post okE okC (m c)) -> Post okE okC (with_cam m).
Proof. intros H st. apply (H (cam st) st). Qed.

Lemma NI_with_cam {D A} (m : Camera -> M D A) :
  (forall b c, m (set_Keep b c) = m c) -> (forall c, NI (m c)) -> NI (with_cam m).
Proof.
  intros Hm Hni b st. unfold with_cam. simpl. rewrite Hm. apply Hni.
Qed.

Lemma quiet_regular (e : Event) : quiet e = true -> regular e = true.
Proof. destruct e; simpl; congruence. Qed.

Lemma regular_download_not_left (e : Event) :
  regular e = true -> download_not_left e = true.
Proof. destruct e; simpl; congruence. Qed.

Ltac post_unfold :=
  unfold log_Fatal, panic, Printf, Sleep, os_Exit, run_defers.

Ltac post_event H :=
  solve [ apply H; reflexivity
        | apply forallb_map_ok; intros; apply H; reflexivity ].

Ltac post_step okE_ok :=
  lazymatch goal with
  | |- Post _ _ (ret _) => apply Post_ret; assumption
  | |- Post _ _ (halt _) => apply Post_halt; assumption
  | |- Post _ _ out_of_fuel => apply Post_fuel; assumption
  | |- Post _ _ (gets _) => apply Post_gets; assumption
  | |- Post _ _ (bind _ _) => apply Post_bind; [assumption | | intros ?]
  | |- Post _ _ (emit _) => apply Post_emit; first [assumption | post_event okE_ok]
  | |- Post _ _ (call _ _) =>
      apply Post_call; first [assumption | intros ?; post_event okE_ok]
  | |- Post _ _ (modify _) => apply Post_modify; first [assumption | solve [auto with post]]
  | |- Post _ _ (emit_all _) =>
      apply Post_emit_all; first [assumption | post_event okE_ok]
  | |- Post _ _ (with_cam _) => apply Post_with_cam; intros ?
  | |- Post _ _ (match ?x with _ => _ end) => destruct x
  end.

Ltac post okE_ok := post_unfold; repeat (first [ solve [auto with post] | post_step okE_ok ]).

Ltac ni_step :=
  lazymatch goal with
  | |- NI (ret _) => apply NI_ret
  | |- NI (halt _) => apply NI_halt
  | |- NI out_of_fuel => apply NI_fuel
  | |- NI (gets _) => apply NI_gets; reflexivity
  | |- NI (bind _ _) => apply NI_bind; [ | intros ?]
  | |- NI (emit _) => apply NI_emit
  | |- NI (call _ _) => apply NI_call
  | |- NI (modify _) => apply NI_modify; reflexivity
  | |- NI (emit_all _) => apply NI_emit_all
  | |- NI (with_cam _) => apply NI_with_cam; [reflexivity | intros ?]
  | |- NI (match ?x with _ => _ end) => destruct x
  end.

Ltac ni := post_unfold; repeat (first [ solve [auto with ni] | ni_step ]).

Create HintDb post.
Create HintDb ni.

(** * Running a computation step by step *)

Lemma bind_emit {D B} (e : Event) (k : unit -> M D B) (st : St D) :
  bind (emit e) k st = k tt (MkSt (cam st) (dev st) (trace st ++ [e])).
Proof. reflexivity. Qed.

Lemma bind_gets {D A B} (f : Camera -> A) (k : A -> M D B) (st : St D) :
  bind (gets f) k st = k (f (cam st)) st.
Proof. reflexivity. Qed.

Lemma bind_val {D A B} (m : M D A) (k : A -> M D B) (st st' : St D) (a : A) :
  m st = (Val a, st') -> bind m k st = k a st'.
Proof. intros H. unfold bind. now rewrite H. Qed.

Lemma bind_ret {D A B} (a : A) (k : A -> M D B) (st : St D) :
  bind (ret a) k st = k a st.
Proof. reflexivity. Qed.

Lemma bind_stop {D A B} (code : Z) (k : A -> M D B) (st : St D) :
  bind (halt code) k st = (Halt code, st).
Proof. reflexivity. Qed.

Lemma bind_modify {D B} (f : Camera -> Camera) (k : unit -> M D B) (st : St D) :
  bind (modify f) k st = k tt (MkSt (f (cam st)) (dev st) (trace st)).
Proof. reflexivity. Qed.

Lemma bind_with_cam {D A B} (m : Camera -> M D A) (k : A -> M D B) (st : St D) :
  bind (with_cam m) k st = bind (m (cam st)) k st.
Proof. reflexivity. Qed.

Lemma bind_call {D A B} (op : D -> A * D) (ev : A -> Event) (k : A -> M D B)
    (st : St D) :
  bind (call op ev) k st
  = k (fst (op (dev st)))
      (MkSt (cam st) (snd (op (dev st))) (trace st ++ [ev (fst (op (dev st)))])).
Proof. unfold bind, call. destruct (op (dev st)); reflexivity. Qed.

Lemma bind_assoc {D A B C} (m : M D A) (k : A -> M D B) (h : B -> M D C)
    (st : St D) :
  bind (bind m k) h st = bind m (fun a => bind (k a) h) st.
Proof. unfold bind. destruct (m st) as [[a| |] st']; reflexivity. Qed.

Lemma bind_emit_all {D B} (es : list Event) (k : unit -> M D B) (st : St D) :
  bind (emit_all es) k st = k tt (MkSt (cam st) (dev st) (trace st ++ es)).
Proof.
  revert st. induction es as [|e es IH]; intros st; simpl.
  - rewrite bind_ret, app_nil_r. destruct st; reflexivity.
  - rewrite bind_assoc, bind_emit, IH. simpl. now rewrite <- app_assoc.
Qed.

Ltac exec_call :=
  rewrite bind_call;
  match goal with
  | |- context [fst (?op (dev ?s))] =>
      let r := fresh "r" in
      let d := fresh "d" in
      destruct (op (dev s)) as [r d]; cbn [fst snd cam dev trace];
      destruct r
  end.

Ltac exec :=
  repeat first
    [ rewrite bind_assoc
    | rewrite bind_ret
    | rewrite bind_stop
    | rewrite bind_emit
    | rewrite bind_gets
    | rewrite bind_modify
    | rewrite bind_with_cam
    | rewrite bind_emit_all
    | exec_call
    | match goal with
      | |- context [bind (match ?x with _ => _ end) _ _] => is_var x; destruct x
      end
    | progress cbn beta iota delta [fst snd cam dev trace] ].

(** * The methods of [Camera]: what they append and what they assign *)

Section Quiet.

Context {D : Type} (gp : Gphoto2 D).
Variable okE : Event -> bool.
Variable okC : Camera -> Camera -> Prop.
Hypothesis okC_refl : forall c, okC c c.
Hypothesis okC_trans : forall a b c, okC a b -> okC b c -> okC a c.
Hypothesis okE_quiet : forall e, quiet e = true -> okE e = true.

Lemma Post_SetConfig (setting v : string) : Post okE okC (SetConfig gp setting v).
Proof. unfold SetConfig. post okE_quiet. Qed.

Lemma Post_GetBatteryStatus : Post okE okC (GetBatteryStatus gp).
Proof. unfold GetBatteryStatus. post okE_quiet. Qed.

Lemma Post_reporter (frame : Z) : Post okE okC (@reporter D frame).
Proof. unfold reporter. post okE_quiet. Qed.

End Quiet.

Section Regular.

Context {D : Type} (gp : Gphoto2 D).
Variable okE : Event -> bool.
Variable okC : Camera -> Camera -> Prop.
Hypothesis okC_refl : forall c, okC c c.
Hypothesis okC_trans : forall a b c, okC a b -> okC b c -> okC a c.
Hypothesis okE_regular : forall e, regular e = true -> okE e = true.

Let okE_quiet : forall e, quiet e = true -> okE e = true.
Proof. intros e H. apply okE_regular, quiet_regular, H. Qed.

Local Hint Resolve Post_SetConfig Post_GetBatteryStatus Post_reporter : post.

Lemma Post_LoadCameraFiles (c : CameraFiles) : Post okE okC (LoadCameraFiles gp c).
Proof. unfold LoadCameraFiles. post okE_regular. Qed.

Lemma Post_download (newFiles : list CameraFilePath) (opened : list string) :
  Post okE okC (download gp newFiles opened).
Proof.
  revert opened. induction newFiles as [|file rest IH]; intros opened; simpl.
  - post okE_regular.
  - post okE_regular; apply IH.
Qed.

Lemma Post_Close : Post okE okC (Close gp).
Proof. unfold Close. post okE_regular. Qed.

End Regular.

(** * [CaptureBulb] *)

Lemma same_but_Battery_refl (c : Camera) : same_but_Battery c c.
Proof. destruct c; reflexivity. Qed.

Lemma same_but_Battery_trans (a b c : Camera) :
  same_but_Battery a b -> same_but_Battery b c -> same_but_Battery a c.
Proof.
  unfold same_but_Battery. intros H1 H2. rewrite H2 at 1. rewrite H1 at 1.
  reflexivity.
Qed.

Lemma same_but_Battery_set (b : string) (c : Camera) :
  same_but_Battery c (set_Battery b c).
Proof. reflexivity. Qed.

#[local] Hint Resolve same_but_Battery_set : post.

Section CaptureBulbFacts.

Context {D : Type} (gp : Gphoto2 D).

(** After its ghost entry, [CaptureBulb] appends regular entries only and
    assigns to [Battery] only. *)
Lemma CaptureBulb_steps (frame : Z) (st : St D) :
  steps regular same_but_Battery
    (MkSt (cam st) (dev st) (trace st ++ [EvCaptureBulb frame]))
    (snd (CaptureBulb gp frame st)).
Proof.
  unfold CaptureBulb. rewrite bind_emit.
  match goal with
  | |- steps ?e ?c ?s (snd (?m ?s)) => generalize s; change (Post e c m)
  end.
  assert (R := same_but_Battery_refl). assert (T := same_but_Battery_trans).
  assert (Q := quiet_regular).
  assert (I : forall e, regular e = true -> regular e = true) by auto.
  pose proof (Post_SetConfig gp regular same_but_Battery R T Q) as HS.
  pose proof (Post_GetBatteryStatus gp regular same_but_Battery R T Q) as HB.
  pose proof (@Post_reporter D regular same_but_Battery R T Q) as HR.
  pose proof (Post_LoadCameraFiles gp regular same_but_Battery R T I) as HL.
  pose proof (Post_download gp regular same_but_Battery R T I) as HD.
  post I.
Qed.

Lemma CaptureBulb_calls (frame : Z) (st : St D) :
  calls (trace (snd (CaptureBulb gp frame st)))
  = (calls (trace st) ++ [frame])%list.
Proof.
  rewrite (steps_calls _ _ _ (CaptureBulb_steps frame st)). simpl.
  now rewrite calls_app.
Qed.

Lemma CaptureBulb_cam (frame : Z) (st : St D) :
  same_but_Battery (cam st) (cam (snd (CaptureBulb gp frame st))).
Proof. apply (CaptureBulb_steps frame st). Qed.

Lemma CaptureBulb_Frames (frame : Z) (st : St D) :
  Frames (cam (snd (CaptureBulb gp frame st))) = Frames (cam st).
Proof. rewrite (CaptureBulb_cam frame st). reflexivity. Qed.

End CaptureBulbFacts.

(** * The whole program: what it appends and what it assigns *)

Section Whole.

Context {D : Type} (gp : Gphoto2 D).
Variable okE : Event -> bool.
Variable okC : Camera -> Camera -> Prop.
Hypothesis okC_refl : forall c, okC c c.
Hypothesis okC_trans : forall a b c, okC a b -> okC b c -> okC a c.
Hypothesis okC_Model : forall v c, okC c (set_Model v c).
Hypothesis okC_Lens : forall v c, okC c (set_Lens v c).
Hypothesis okC_Battery : forall v c, okC c (set_Battery v c).
Hypothesis okC_Files : forall v c, okC c (set_Files v c).
Hypothesis okE_regular : forall e, regular e = true -> okE e = true.

Let okE_quiet : forall e, quiet e = true -> okE e = true.
Proof. intros e H. apply okE_regular, quiet_regular, H. Qed.

Local Hint Resolve Post_SetConfig Post_GetBatteryStatus Post_reporter
  Post_LoadCameraFiles Post_download Post_Close : post.

Lemma Post_Init (name : string) : Post okE okC (Init gp name).
Proof. unfold Init, Init_SetConfig, Init_GetString. post okE_regular. Qed.

Hypothesis okE_ghost : forall frame, okE (EvCaptureBulb frame) = true.

Lemma Post_CaptureBulb (frame : Z) : Post okE okC (CaptureBulb gp frame).
Proof.
  unfold CaptureBulb. apply Post_bind; [assumption | |intros _].
  - apply Post_emit; [assumption|apply okE_ghost].
  - post okE_regular.
Qed.

Lemma CaptureLoop_for_eq (fuel : nat) (frame : Z) :
  CaptureLoop_for gp fuel frame
  = (frames <- gets Frames ;;
     if (frames =? 0) || (frame <? frames) then
       match fuel with
       | O => out_of_fuel
       | S fuel' =>
           err <- CaptureBulb gp (wrap (frame + 1)) ;;
           match err with
           | Some e => ret (Some e)
           | None => CaptureLoop_for gp fuel' (wrap (frame + 1))
           end
       end
     else
       Printf (LF ++ LF ++ "Frames capture complete." ++ LF) ;;
       ret None).
Proof. destruct fuel; reflexivity. Qed.

Lemma Post_CaptureLoop_for (fuel : nat) (frame : Z) :
  Post okE okC (CaptureLoop_for gp fuel frame).
Proof.
  revert frame. induction fuel as [|fuel IH]; intros frame;
    rewrite CaptureLoop_for_eq.
  - post okE_regular.
  - pose proof Post_CaptureBulb. post okE_regular; apply IH.
Qed.

Lemma Post_main (fuel : nat) (name : string) : Post okE okC (main gp fuel name).
Proof.
  unfold main, CaptureLoop.
  pose proof Post_Init. pose proof Post_CaptureLoop_for.
  post okE_regular.
Qed.

End Whole.

(** * The whole program: [Keep] is never read *)

Section KeepFacts.

Context {D : Type} (gp : Gphoto2 D).

Lemma NI_SetConfig (setting v : string) : NI (SetConfig gp setting v).
Proof. unfold SetConfig. ni. Qed.

Lemma NI_GetBatteryStatus : NI (GetBatteryStatus gp).
Proof. unfold GetBatteryStatus. ni. Qed.

Lemma NI_reporter (frame : Z) : NI (@reporter D frame).
Proof. unfold reporter. ni. Qed.

Lemma NI_LoadCameraFiles (c : CameraFiles) : NI (LoadCameraFiles gp c).
Proof. unfold LoadCameraFiles. ni. Qed.

Lemma NI_download (newFiles : list CameraFilePath) (opened : list string) :
  NI (download gp newFiles opened).
Proof.
  revert opened. induction newFiles as [|file rest IH]; intros opened; simpl.
  - ni.
  - ni; apply IH.
Qed.

Lemma NI_Close : NI (Close gp).
Proof. unfold Close. ni. Qed.

Local Hint Resolve NI_SetConfig NI_GetBatteryStatus NI_reporter
  NI_LoadCameraFiles NI_download NI_Close : ni.

Lemma NI_CaptureBulb (frame : Z) : NI (CaptureBulb gp frame).
Proof. unfold CaptureBulb. ni. Qed.

Lemma NI_Init (name : string) : NI (Init gp name).
Proof. unfold Init, Init_SetConfig, Init_GetString. ni. Qed.

Lemma NI_CaptureLoop_for (fuel : nat) (frame : Z) : NI (CaptureLoop_for gp fuel frame).
Proof.
  revert frame. induction fuel as [|fuel IH]; intros frame;
    rewrite CaptureLoop_for_eq.
  - ni.
  - pose proof NI_CaptureBulb. ni; apply IH.
Qed.

Lemma NI_main_interrupt : NI (main_interrupt gp).
Proof. unfold main_interrupt. ni. Qed.

Lemma NI_main (fuel : nat) (name : string) : NI (main gp fuel name).
Proof.
  unfold main, CaptureLoop.
  pose proof NI_Init. pose proof NI_CaptureLoop_for.
  ni.
Qed.

End KeepFacts.

(** * The capture loop *)

Lemma wrap_small (z : Z) : in_int z -> wrap z = z.
Proof.
  unfold in_int, min_int, max_int, wrap. intros H.
  rewrite Z.mod_small; lia.
Qed.

Section LoopFacts.

Context {D : Type} (gp : Gphoto2 D).

Lemma CaptureLoop_for_calls (fuel : nat) :
  forall (frame : Z) (st : St D),
    0 <= frame -> Frames (cam st) <> 0 -> Frames (cam st) <= max_int ->
    exists l,
      calls (trace (snd (CaptureLoop_for gp fuel frame st)))
      = (calls (trace st) ++ l)%list
      /\ Forall (fun i => frame < i <= Frames (cam st)) l.
Proof.
  induction fuel as [|fuel IH]; intros frame st Hf Hn Hmax;
    rewrite CaptureLoop_for_eq; unfold bind at 1, gets at 1;
    destruct ((Frames (cam st) =? 0) || (frame <? Frames (cam st))) eqn:Hc.
  - exists []. simpl. rewrite app_nil_r. auto.
  - exists []. simpl. rewrite calls_app, app_nil_r. simpl. rewrite app_nil_r. auto.
  - apply orb_prop in Hc. destruct Hc as [Hc|Hc]; [apply Z.eqb_eq in Hc; contradiction|].
    apply Z.ltb_lt in Hc.
    rewrite (wrap_small (frame + 1)) by (unfold in_int, min_int, max_int in *; lia).
    unfold bind.
    pose proof (CaptureBulb_calls gp (frame + 1) st) as Hcalls.
    pose proof (CaptureBulb_Frames gp (frame + 1) st) as HF.
    destruct (CaptureBulb gp (frame + 1) st) as [[[e|]| |] st1]; simpl in *.
    + exists [frame + 1]. split; [exact Hcalls|]. constructor; [lia|constructor].
    + destruct (IH (frame + 1) st1) as (l & El & Fl); [lia|congruence|lia|].
      exists ((frame + 1) :: l). split.
      * rewrite El, Hcalls, <- app_assoc. reflexivity.
      * constructor; [lia|]. rewrite HF in Fl.
        eapply Forall_impl; [|exact Fl]. simpl. intros; lia.
    + exists [frame + 1]. split; [exact Hcalls|]. constructor; [lia|constructor].
    + exists [frame + 1]. split; [exact Hcalls|]. constructor; [lia|constructor].
  - exists []. simpl. rewrite calls_app, app_nil_r. simpl. rewrite app_nil_r. auto.
Qed.

End LoopFacts.

(** C10: when the target frame count is not zero, every frame index that a
    run of the capture loop passes to the exposure cycle lies between 1 and
    the target count, however far the run gets. *)
Theorem CaptureLoop_index_within_target {D : Type} (gp : Gphoto2 D)
    (fuel : nat) (st : St D) :
  Frames (cam st) <> 0 -> in_int (Frames (cam st)) ->
  exists l,
    calls (trace (snd (CaptureLoop gp fuel st))) = (calls (trace st) ++ l)%list
    /\ Forall (fun i => 1 <= i <= Frames (cam st)) l.
Proof.
  intros Hn [_ Hmax].
  destruct (CaptureLoop_for_calls gp fuel 0 st) as (l & El & Fl); [lia|auto|auto|].
  exists l. split; [exact El|].
  eapply Forall_impl; [|exact Fl]. simpl. intros; lia.
Qed.

Lemma CaptureLoop_index_within_target_witness :
  exists l,
    calls (trace (snd (CaptureLoop sim 5
             (start (flags 3 1 "lights" false) (sim_empty true false)))))
    = ([] ++ l)%list
    /\ Forall (fun i => 1 <= i <= 3) l.
Proof.
  apply (CaptureLoop_index_within_target sim 5
           (start (flags 3 1 "lights" false) (sim_empty true false))).
  - simpl. lia.
  - unfold in_int, min_int, max_int. simpl. lia.
Defined.

Lemma Init_regular {D} (gp : Gphoto2 D) (name : string) (st : St D) :
  steps regular same_Frames st (snd (Init gp name st)).
Proof.
  apply Post_Init; unfold same_Frames; try reflexivity; auto; congruence.
Qed.

Lemma Close_regular {D} (gp : Gphoto2 D) (st : St D) :
  steps regular same_Frames st (snd (Close gp st)).
Proof.
  apply Post_Close; unfold same_Frames; auto; congruence.
Qed.

Lemma frames_from_shift (frame : Z) (n : nat) :
  map (fun i => frame + Z.of_nat i + 1) (seq 0 (S n))
  = (frame + 1) :: map (fun i => (frame + 1) + Z.of_nat i + 1) (seq 0 n).
Proof.
  cbn [seq map]. rewrite <- seq_shift, map_map. f_equal.
  - simpl. lia.
  - apply map_ext. intros i. lia.
Qed.

Section Session.

Context {D : Type} (gp : Gphoto2 D).
Variable N : Z.
Variable I : Z -> Camera -> D -> Prop.
Hypothesis N_pos : 0 < N.
Hypothesis N_int : N <= max_int.
Hypothesis cycles_succeed :
  forall k c d tr, 1 <= k <= N -> I k c d ->
    exists st', CaptureBulb gp k (MkSt c d tr) = (Val None, st')
                /\ I (k + 1) (cam st') (dev st').

Lemma CaptureLoop_for_succeeds (n : nat) :
  forall (fuel : nat) (frame : Z) (st : St D),
    Z.of_nat n = N - frame -> 0 <= frame -> (n <= fuel)%nat ->
    Frames (cam st) = N -> I (frame + 1) (cam st) (dev st) ->
    exists st',
      CaptureLoop_for gp fuel frame st = (Val None, st')
      /\ calls (trace st')
         = (calls (trace st) ++ map (fun i => frame + Z.of_nat i + 1) (seq 0 n))%list
      /\ I (N + 1) (cam st') (dev st').
Proof.
  induction n as [|n IH]; intros fuel frame st Hn Hf Hfuel HF HI;
    rewrite CaptureLoop_for_eq, bind_gets, HF.
  - assert (frame = N) by lia. subst frame.
    replace ((N =? 0) || (N <? N)) with false
      by (symmetry; apply orb_false_iff; split; [apply Z.eqb_neq|apply Z.ltb_ge]; lia).
    unfold Printf. rewrite bind_emit. eexists. split; [reflexivity|].
    simpl. rewrite calls_app. simpl. rewrite !app_nil_r. auto.
  - replace ((N =? 0) || (frame <? N)) with true
      by (symmetry; apply orb_true_iff; right; apply Z.ltb_lt; lia).
    destruct fuel as [|fuel]; [lia|].
    rewrite (wrap_small (frame + 1)) by (unfold in_int, min_int, max_int in *; lia).
    destruct st as [c d tr]. simpl in HF, HI.
    destruct (cycles_succeed (frame + 1) c d tr) as (st1 & E1 & I1); [lia|exact HI|].
    rewrite (bind_val _ _ _ _ _ E1).
    pose proof (CaptureBulb_calls gp (frame + 1) (MkSt c d tr)) as Hcalls.
    pose proof (CaptureBulb_Frames gp (frame + 1) (MkSt c d tr)) as HF1.
    rewrite E1 in Hcalls, HF1. simpl in Hcalls, HF1.
    destruct (IH fuel (frame + 1) st1) as (st' & E' & C' & I');
      try lia; try congruence; auto.
    exists st'. split; [exact E'|]. split; [|exact I'].
    rewrite C', Hcalls, frames_from_shift, <- app_assoc. reflexivity.
Qed.

Lemma CaptureLoop_succeeds (fuel : nat) (st : St D) :
  (Z.to_nat N <= fuel)%nat -> Frames (cam st) = N -> I 1 (cam st) (dev st) ->
  exists st',
    CaptureLoop gp fuel st = (Val None, st')
    /\ calls (trace st') = (calls (trace st) ++ frames_upto N)%list
    /\ I (N + 1) (cam st') (dev st').
Proof.
  intros Hfuel HF HI. unfold CaptureLoop, frames_upto.
  destruct (CaptureLoop_for_succeeds (Z.to_nat N) fuel 0 st) as (st' & E & C & I');
    auto; try lia.
  exists st'. split; [exact E|]. split; [|exact I'].
  rewrite C. f_equal.
Qed.

Lemma main_succeeds (fuel : nat) (name : string) (st0 st1 : St D) :
  (Z.to_nat N <= fuel)%nat -> Frames (cam st0) = N ->
  Kind (cam st0) = "lights" \/ Kind (cam st0) = "darks" ->
  wrap (N * Duration (cam st0)) <= 28800 ->
  Init gp name st0 = (Val None, st1) ->
  I 1 (cam st1) (dev st1) ->
  (forall c d tr, I (N + 1) c d ->
     exists st', Close gp (MkSt c d tr) = (Val None, st')) ->
  exists st',
    main gp fuel name st0 = (Val tt, st')
    /\ calls (trace st') = (calls (trace st0) ++ frames_upto N)%list.
Proof.
  intros Hfuel HF HK HT HInit HI HClose.
  pose proof (Init_regular gp name st0) as HS. rewrite HInit in HS. simpl in HS.
  assert (HF1 : Frames (cam st1) = N) by (destruct HS as [_ HS]; congruence).
  apply steps_calls in HS.
  unfold main. rewrite bind_gets.
  replace (negb (Kind (cam st0) =? "lights")%string
           && negb (Kind (cam st0) =? "darks")%string) with false
    by (destruct HK as [->| ->]; reflexivity).
  rewrite bind_gets, HF.
  replace (wrap (N * Duration (cam st0)) >? 28800) with false
    by (symmetry; rewrite Z.gtb_ltb; apply Z.ltb_ge; lia).
  rewrite (bind_val _ _ _ _ _ HInit). unfold Printf.
  repeat (rewrite bind_gets || rewrite bind_emit). cbn [cam dev trace].
  match goal with |- context [bind (CaptureLoop gp fuel) _ ?s] => set (s2 := s) end.
  destruct (CaptureLoop_succeeds fuel s2) as (st3 & E3 & C3 & I3); auto.
  rewrite (bind_val _ _ _ _ _ E3).
  destruct st3 as [c3 d3 tr3]. simpl in C3, I3.
  destruct (HClose c3 d3 tr3 I3) as (st4 & E4).
  pose proof (Close_regular gp (MkSt c3 d3 tr3)) as HC. rewrite E4 in HC.
  apply steps_calls in HC. simpl in HC.
  rewrite (bind_val _ _ _ _ _ E4). exists st4. split; [reflexivity|].
  rewrite HC, C3. subst s2. simpl.
  rewrite <- !app_assoc, calls_app. simpl. rewrite app_nil_r, HS. reflexivity.
Qed.

End Session.

(** C7, as stated, fails: with a target of 2 frames on a camera whose
    [Exit] fails, both exposure cycles succeed and the capture loop returns
    [nil] after cycles 1 and 2, yet [Close] fails afterwards, [main] calls
    [log.Fatal] and the process exits with status 1. *)
Lemma main_exit_status_counterexample :
  let st0 := start (flags 2 1 "lights" false) (sim_empty true true) in
  fst (CaptureLoop sim 2 (snd (Init sim "" st0))) = Val None
  /\ calls (trace (snd (CaptureLoop sim 2 (snd (Init sim "" st0))))) = [1; 2]
  /\ calls (trace (snd (main sim 2 "" st0))) = [1; 2]
  /\ exit_status (fst (main sim 2 "" st0)) = Some 1.
Proof. vm_compute. auto. Qed.

(** C7, amended: for every target frame count N > 0, if every exposure
    cycle succeeds, [CaptureLoop] invokes the cycle exactly N times, with
    frame indices 1 through N in increasing order, and returns [nil]; when
    moreover the configuration passes the sanity checks, [Init] succeeds and
    closing the camera succeeds, [main] returns and the process exits with
    status 0.  "Every cycle succeeds" is given by an invariant [I k] of the
    struct and the world before cycle [k]. *)
Theorem CaptureLoop_runs_all_frames {D : Type} (gp : Gphoto2 D)
    (I : Z -> Camera -> D -> Prop) (N : Z) (fuel : nat) :
  0 < N -> N <= max_int -> (Z.to_nat N <= fuel)%nat ->
  (forall k c d tr, 1 <= k <= N -> I k c d ->
     exists st', CaptureBulb gp k (MkSt c d tr) = (Val None, st')
                 /\ I (k + 1) (cam st') (dev st')) ->
  (forall st, Frames (cam st) = N -> I 1 (cam st) (dev st) ->
     exists st',
       CaptureLoop gp fuel st = (Val None, st')
       /\ calls (trace st') = (calls (trace st) ++ frames_upto N)%list)
  /\ (forall name st0 st1,
        Frames (cam st0) = N ->
        Kind (cam st0) = "lights" \/ Kind (cam st0) = "darks" ->
        wrap (N * Duration (cam st0)) <= 28800 ->
        Init gp name st0 = (Val None, st1) ->
        I 1 (cam st1) (dev st1) ->
        (forall c d tr, I (N + 1) c d ->
           exists st', Close gp (MkSt c d tr) = (Val None, st')) ->
        exists st',
          main gp fuel name st0 = (Val tt, st')
          /\ exit_status (fst (main gp fuel name st0)) = Some 0
          /\ calls (trace st') = (calls (trace st0) ++ frames_upto N)%list).
Proof.
  intros Hpos Hint Hfuel Hcyc. split.
  - intros st HF HI.
    destruct (CaptureLoop_succeeds gp N I Hpos Hint Hcyc fuel st Hfuel HF HI)
      as (st' & E & C & _).
    exists st'. auto.
  - intros name st0 st1 HF HK HT HInit HI HClose.
    destruct (main_succeeds gp N I Hpos Hint Hcyc fuel name st0 st1
                Hfuel HF HK HT HInit HI HClose) as (st' & E & C).
    exists st'. rewrite E. auto.
Qed.

Lemma CaptureLoop_runs_all_frames_witness :
  let st0 := start (flags 2 1 "lights" false) (sim_empty true false) in
  (exists st',
     CaptureLoop sim 2 (snd (Init sim "" st0)) = (Val None, st')
     /\ calls (trace st')
        = (calls (trace (snd (Init sim "" st0))) ++ frames_upto 2)%list)
  /\ (exists st',
        main sim 2 "" st0 = (Val tt, st')
        /\ exit_status (fst (main sim 2 "" st0)) = Some 0
        /\ calls (trace st') = (calls (trace st0) ++ frames_upto 2)%list).
Proof.
  intros st0.
  destruct (CaptureLoop_runs_all_frames sim sim_session 2 2) as [Hloop Hmain].
  - lia.
  - unfold max_int. lia.
  - simpl. lia.
  - intros k c d tr Hk [-> ->].
    assert (Hk' : k = 1 \/ k = 2) by lia.
    destruct Hk' as [-> | ->];
      match goal with
      | |- exists st', ?m = _ /\ _ => exists (snd m)
      end; split; vm_compute; auto.
  - split.
    + apply Hloop; vm_compute; auto.
    + apply (Hmain "" st0 (snd (Init sim "" st0))).
      * reflexivity.
      * left. reflexivity.
      * vm_compute. discriminate.
      * vm_compute. reflexivity.
      * vm_compute. auto.
      * intros c d tr [-> ->].
        match goal with
        | |- exists st', ?m = _ => exists (snd m)
        end. vm_compute. reflexivity.
Defined.

Lemma listings_quiet (l : list Event) : forallb quiet l = true -> listings l = [].
Proof.
  induction l as [|e l IH]; simpl; [reflexivity|].
  intros H. apply andb_prop in H. destruct H as [He Hl].
  destruct e; simpl in *; try discriminate; auto.
Qed.

Lemma downloaded_quiet (l : list Event) : forallb quiet l = true -> downloaded l = [].
Proof.
  induction l as [|e l IH]; simpl; [reflexivity|].
  intros H. apply andb_prop in H. destruct H as [He Hl].
  destruct e; simpl in *; try discriminate; auto.
Qed.

Lemma last_listing_snoc (tr l : list Event) (storage : list CameraFilePath) :
  listings l = [] ->
  last_listing (tr ++ EvListFiles (inr storage) :: l) = Some (walk storage).
Proof.
  intros Hl. unfold last_listing.
  rewrite listings_app. simpl. rewrite Hl, map_app. simpl.
  apply last_last.
Qed.

Section CycleFacts.

Context {D : Type} (gp : Gphoto2 D).

(** A download loop that returns [nil] has transferred exactly the files it
    was given, in order. *)
Lemma download_nil (newFiles : list CameraFilePath) :
  forall (opened : list string) (st : St D),
    match download gp newFiles opened st with
    | (Val None, st') =>
        cam st' = cam st
        /\ exists l, trace st' = (trace st ++ l)%list
                     /\ listings l = [] /\ downloaded l = newFiles
    | _ => True
    end.
Proof.
  induction newFiles as [|file rest IH]; intros opened st; simpl.
  - unfold run_defers. rewrite bind_emit_all. unfold ret. split; [reflexivity|].
    exists (map EvClose opened). simpl. split; [reflexivity|].
    split; [apply listings_quiet | apply downloaded_quiet];
      apply forallb_map_ok; reflexivity.
  - unfold run_defers. exec; unfold ret; auto.
    match goal with
    | |- context [download gp rest ?o ?s] =>
        specialize (IH o s); destruct (download gp rest o s) as [[[e|]| |] st']
    end; auto.
    destruct IH as (Hc & l & Ht & Hl & Hd). simpl in Hc, Ht.
    split; [exact Hc|].
    eexists. split; [rewrite Ht, <- !app_assoc; reflexivity|].
    simpl. rewrite Hl, Hd. auto.
Qed.

(** An exposure cycle that returns [nil] leaves [Files] as it was, has
    listed the device, and has transferred what [FindNew] selects from that
    listing against the unchanged baseline. *)
Lemma CaptureBulb_nil (frame : Z) (st : St D) :
  match CaptureBulb gp frame st with
  | (Val None, st') =>
      Files (cam st') = Files (cam st)
      /\ exists fresh,
           last_listing (trace st') = Some fresh
           /\ downloaded (trace st')
              = (downloaded (trace st) ++ FindNew (Files (cam st)) fresh)%list
  | _ => True
  end.
Proof.
  unfold CaptureBulb, GetBatteryStatus, SetConfig, reporter, LoadCameraFiles,
    panic, Sleep.
  exec; unfold ret; auto.
  match goal with
  | |- context [download gp ?f ?o ?s] =>
      pose proof (download_nil f o s) as H;
      destruct (download gp f o s) as [[[e|]| |] st']
  end; auto.
  destruct H as (Hc & l' & Ht & Hl & Hd). cbn [cam trace] in Hc, Ht.
  split; [rewrite Hc; reflexivity|].
  exists (walk l). split.
  - rewrite Ht, <- app_assoc. cbn [app]. apply last_listing_snoc, Hl.
  - rewrite Ht, !downloaded_app. cbn [downloaded].
    rewrite (downloaded_quiet (map _ _)) by (apply forallb_map_ok; reflexivity).
    rewrite Hd, !app_nil_r. reflexivity.
Qed.

End CycleFacts.

(** * The exposure cycle and the baseline manifest *)

(** C1, as stated, fails: on a camera with an empty card, the first
    exposure cycle succeeds and its listing shows the new frame, but
    [Files] is still the empty manifest loaded by [Init]. *)
Lemma CaptureBulb_baseline_counterexample :
  let st := snd (Init sim "" (start (flags 2 1 "lights" false)
                                    (sim_empty true false))) in
  fst (CaptureBulb sim 1 st) = Val None
  /\ last_listing (trace (snd (CaptureBulb sim 1 st))) = Some [sim_frame 1]
  /\ Files (cam (snd (CaptureBulb sim 1 st))) = []
  /\ last_listing (trace (snd (CaptureBulb sim 1 st)))
     <> Some (Files (cam (snd (CaptureBulb sim 1 st)))).
Proof. vm_compute. repeat split; discriminate. Qed.

(** C1, amended: after every successful exposure cycle ([CaptureBulb]
    returning [nil]) the baseline manifest [Files] is unchanged, and the
    files transferred in the cycle are exactly those [FindNew] selects from
    the freshly listed manifest against that unchanged baseline. *)
Theorem CaptureBulb_keeps_baseline {D : Type} (gp : Gphoto2 D)
    (frame : Z) (st st' : St D) :
  CaptureBulb gp frame st = (Val None, st') ->
  Files (cam st') = Files (cam st)
  /\ exists fresh,
       last_listing (trace st') = Some fresh
       /\ downloaded (trace st')
          = (downloaded (trace st) ++ FindNew (Files (cam st)) fresh)%list.
Proof.
  intros H. pose proof (CaptureBulb_nil gp frame st) as P.
  rewrite H in P. exact P.
Qed.

Lemma CaptureBulb_keeps_baseline_witness :
  let st := snd (Init sim "" (start (flags 2 1 "lights" false)
                                    (sim_empty true false))) in
  let st' := snd (CaptureBulb sim 1 st) in
  Files (cam st') = Files (cam st)
  /\ exists fresh,
       last_listing (trace st') = Some fresh
       /\ downloaded (trace st')
          = (downloaded (trace st) ++ FindNew (Files (cam st)) fresh)%list.
Proof.
  intros st st'.
  apply (CaptureBulb_keeps_baseline sim 1 st st').
  vm_compute. reflexivity.
Defined.

(** On a camera that keeps its files after a download, the baseline that
    never advances makes the second cycle transfer the first frame again. *)
Example retained_frame_downloaded_again :
  map Name (downloaded (trace (snd (main sim 2 ""
     (start (flags 2 1 "lights" false) (sim_empty false false))))))
  = ["IMG_1.CR2"; "IMG_1.CR2"; "IMG_2.CR2"].
Proof. vm_compute. reflexivity. Qed.

(** On a camera that removes a file once it is downloaded, each frame is
    transferred once. *)
Example removed_frame_downloaded_once :
  map Name (downloaded (trace (snd (main sim 2 ""
     (start (flags 2 1 "lights" false) (sim_empty true false))))))
  = ["IMG_1.CR2"; "IMG_2.CR2"].
Proof. vm_compute. reflexivity. Qed.

(** * The interrupt handler *)

(** C8: the interrupt handler makes one attempt to release the shutter (one
    [SetConfig] of the remote-release setting to "Release Full": the request
    for the setting and, if that succeeds, one write) and then ends the
    process with status 1, whatever the attempt returned. *)
Theorem main_interrupt_releases_then_exits {D : Type} (gp : Gphoto2 D) (st : St D) :
  exists err st',
    SetConfig gp EosRemoteRelease "Release Full" st = (Val err, st')
    /\ main_interrupt gp st = (Halt 1, st')
    /\ exit_status (fst (main_interrupt gp st)) = Some 1
    /\ ((exists e,
            trace st' = (trace st ++ [EvGetSetting EosRemoteRelease (Some e)])%list)
        \/ (exists r,
              trace st' = (trace st ++ [EvGetSetting EosRemoteRelease None;
                                        EvSet EosRemoteRelease "Release Full" r])%list)).
Proof.
  unfold main_interrupt, SetConfig, os_Exit, halt, bind, call.
  destruct (Camera_GetSetting gp EosRemoteRelease (dev st)) as [[e|] d1]; simpl.
  - do 2 eexists. split; [reflexivity|]. split; [reflexivity|].
    split; [reflexivity|]. left. exists e. reflexivity.
  - destruct (Widget_Set gp EosRemoteRelease "Release Full" d1) as [[e|] d2]; simpl;
      do 2 eexists; (split; [reflexivity|]); (split; [reflexivity|]);
      (split; [reflexivity|]); right; rewrite <- app_assoc; simpl; eauto.
Qed.

(** * The sanity checks of [main] *)

(** C3, as stated, fails: with kind "flats" the program prints its message
    and returns from [main], so the exit status is 0, not a non-zero one. *)
Lemma main_rejection_status_counterexample :
  let st := start (flags 1 60 "flats" false) (sim_empty true false) in
  Kind (cam st) <> "lights" /\ Kind (cam st) <> "darks"
  /\ device_commands (trace (snd (main sim 1 "" st))) = []
  /\ exit_status (fst (main sim 1 "" st)) = Some 0
  /\ ~ (exists code, exit_status (fst (main sim 1 "" st)) = Some code /\ code <> 0).
Proof.
  vm_compute. repeat split; try discriminate.
  intros (code & E & N). injection E as <-. apply N. reflexivity.
Qed.

(** The product is computed in [int]: a product that wraps around passes
    the check and the camera is contacted. *)
Example wrapped_product_passes_check :
  let st := start (flags (2 ^ 62) 4 "lights" false) (sim_empty true false) in
  Frames (cam st) * Duration (cam st) > 28800
  /\ hd_error (trace (snd (main sim 1 "" st))) = Some (EvNewCamera "" None).
Proof. vm_compute. auto. Qed.

(** C3, amended: for every configuration whose frame kind is not exactly
    "lights" or "darks", or whose product frames times duration (when it
    fits in an [int]) exceeds 28800 seconds, [main] issues no device
    command, prints the message of the check that fails and returns, so
    that the process ends with status 0: the message naming the bad kind
    when the kind is invalid, the message about the eight hours when the
    kind is valid and the product too large.  A configuration with
    frames = 8 and duration = 3600 and a valid kind is accepted: the
    program goes on to contact the camera. *)
Theorem main_sanity_checks {D : Type} (gp : Gphoto2 D) (fuel : nat)
    (name : string) (st : St D) :
  (Kind (cam st) <> "lights" /\ Kind (cam st) <> "darks" ->
   main gp fuel name st
   = (Val tt,
      MkSt (cam st) (dev st)
           (trace st ++ [EvStdout ("Bad 'kind' option: " ++ Kind (cam st)
                                   ++ " (must be either 'lights' or 'darks'")]))
   /\ device_commands (trace (snd (main gp fuel name st)))
      = device_commands (trace st)
   /\ exit_status (fst (main gp fuel name st)) = Some 0)
  /\ (Kind (cam st) = "lights" \/ Kind (cam st) = "darks" ->
      in_int (Frames (cam st) * Duration (cam st)) ->
      Frames (cam st) * Duration (cam st) > 28800 ->
      main gp fuel name st
      = (Val tt,
         MkSt (cam st) (dev st)
              (trace st ++ [EvStdout
                 ("Specified shooting time is longer than 8 hours, aborting."
                  ++ LF)]))
      /\ device_commands (trace (snd (main gp fuel name st)))
         = device_commands (trace st)
      /\ exit_status (fst (main gp fuel name st)) = Some 0)
  /\ (Kind (cam st) = "lights" \/ Kind (cam st) = "darks" ->
      Frames (cam st) = 8 -> Duration (cam st) = 3600 ->
      exists r l,
        trace (snd (main gp fuel name st))
        = (trace st ++ EvNewCamera name r :: l)%list).
Proof.
  split; [|split].
  - intros [H1 H2]. unfold main. rewrite bind_gets.
    apply String.eqb_neq in H1, H2. rewrite H1, H2. cbn [negb andb].
    unfold Printf. rewrite bind_emit. unfold ret.
    split; [reflexivity|]. split; [|reflexivity]. simpl.
    unfold device_commands. rewrite filter_app. simpl. apply app_nil_r.
  - intros HK Hin Hgt. unfold main. rewrite bind_gets.
    replace (negb (Kind (cam st) =? "lights")%string
             && negb (Kind (cam st) =? "darks")%string) with false
      by (destruct HK as [-> | ->]; reflexivity).
    rewrite bind_gets, (wrap_small _ Hin).
    replace (Frames (cam st) * Duration (cam st) >? 28800) with true
      by (symmetry; rewrite Z.gtb_ltb; apply Z.ltb_lt; lia).
    unfold Printf. rewrite bind_emit. unfold ret.
    split; [reflexivity|]. split; [|reflexivity]. simpl.
    unfold device_commands. rewrite filter_app. simpl. apply app_nil_r.
  - intros HK HF HD. unfold main. rewrite bind_gets.
    replace (negb (Kind (cam st) =? "lights")%string
             && negb (Kind (cam st) =? "darks")%string) with false
      by (destruct HK as [-> | ->]; reflexivity).
    rewrite bind_gets, HF, HD.
    replace (wrap (8 * 3600) >? 28800) with false by reflexivity.
    unfold Init. rewrite bind_assoc, bind_call.
    set (r := fst (gphoto2_NewCamera gp name (dev st))).
    match goal with
    | |- context [snd (?m ?s)] =>
        assert (P : Post download_not_left anyC m); [|specialize (P s)]
    end.
    { assert (R : forall c, anyC c c) by (intros; exact Logic.I).
      assert (T : forall a b c, anyC a b -> anyC b c -> anyC a c)
        by (intros; exact Logic.I).
      assert (A : forall c c', anyC c c') by (intros; exact Logic.I).
      assert (E := regular_download_not_left).
      assert (Q : forall e, quiet e = true -> download_not_left e = true)
        by (intros e He; apply E, quiet_regular, He).
      assert (G : forall frame, download_not_left (EvCaptureBulb frame) = true)
        by reflexivity.
      pose proof (Post_SetConfig gp download_not_left anyC R T Q).
      pose proof (Post_GetBatteryStatus gp download_not_left anyC R T Q).
      pose proof (Post_LoadCameraFiles gp download_not_left anyC R T E).
      pose proof (Post_Close gp download_not_left anyC R T E).
      pose proof (Post_CaptureLoop_for gp download_not_left anyC R T
                    (fun v c => A c _) E G).
      unfold Init_SetConfig, Init_GetString, CaptureLoop.
      post E. }
    destruct P as [(l & El & _) _]. exists r, l.
    rewrite El. simpl. rewrite <- app_assoc. reflexivity.
Qed.

Lemma main_sanity_checks_witness :
  (main sim 1 "" (start (flags 1 60 "flats" false) (sim_empty true false))
   = (Val tt,
      MkSt (flags 1 60 "flats" false) (sim_empty true false)
           ([] ++ [EvStdout ("Bad 'kind' option: " ++ "flats"
                             ++ " (must be either 'lights' or 'darks'")]))
   /\ exit_status (fst (main sim 1 ""
        (start (flags 1 60 "flats" false) (sim_empty true false)))) = Some 0)
  /\ (main sim 1 "" (start (flags 10 3600 "lights" false) (sim_empty true false))
      = (Val tt,
         MkSt (flags 10 3600 "lights" false) (sim_empty true false)
              ([] ++ [EvStdout
                 ("Specified shooting time is longer than 8 hours, aborting."
                  ++ LF)]))
      /\ exit_status (fst (main sim 1 ""
           (start (flags 10 3600 "lights" false) (sim_empty true false)))) = Some 0)
  /\ (exists r l,
        trace (snd (main sim 1 ""
          (start (flags 8 3600 "darks" false) (sim_empty true false))))
        = ([] ++ EvNewCamera "" r :: l)%list).
Proof.
  split; [|split].
  - destruct (main_sanity_checks sim 1 ""
                (start (flags 1 60 "flats" false) (sim_empty true false)))
      as [H _].
    destruct H as (E & _ & S).
    + split; discriminate.
    + split; [exact E | exact S].
  - destruct (main_sanity_checks sim 1 ""
                (start (flags 10 3600 "lights" false) (sim_empty true false)))
      as [_ [H _]].
    destruct H as (E & _ & S).
    + left. reflexivity.
    + unfold in_int, min_int, max_int. simpl. lia.
    + simpl. lia.
    + split; [exact E | exact S].
  - destruct (main_sanity_checks sim 1 ""
                (start (flags 8 3600 "darks" false) (sim_empty true false)))
      as [_ [_ H]].
    apply H; [right|..]; reflexivity.
Defined.

(** * The [Keep] flag *)

(** [Keep] is never read: two runs that differ only in the value of [Keep]
    end the same way, issue the same device commands, print the same output
    and leave the world in the same state, for [main] and for the interrupt
    handler; and every download is requested with the leave-on-camera
    argument [false]. *)
Theorem Keep_is_ignored {D : Type} (gp : Gphoto2 D) (fuel : nat)
    (name : string) (b : bool) (st : St D) :
  (fst (main gp fuel name (with_Keep b st)) = fst (main gp fuel name st)
   /\ trace (snd (main gp fuel name (with_Keep b st)))
      = trace (snd (main gp fuel name st))
   /\ dev (snd (main gp fuel name (with_Keep b st)))
      = dev (snd (main gp fuel name st))
   /\ cam (snd (main gp fuel name (with_Keep b st)))
      = set_Keep b (cam (snd (main gp fuel name st))))
  /\ main_interrupt gp (with_Keep b st)
     = (fst (main_interrupt gp st), with_Keep b (snd (main_interrupt gp st)))
  /\ exists l,
       trace (snd (main gp fuel name st)) = (trace st ++ l)%list
       /\ forallb download_not_left l = true.
Proof.
  split; [|split].
  - rewrite (NI_main gp fuel name b st). simpl. auto.
  - apply NI_main_interrupt.
  - assert (A : forall c c', anyC c c') by (intros; exact Logic.I).
    destruct (Post_main gp download_not_left anyC
                (fun c => A c c) (fun a _ c _ _ => A a c)
                (fun v c => A c _) (fun v c => A c _) (fun v c => A c _)
                (fun v c => A c _) regular_download_not_left
                (fun _ => eq_refl) fuel name st) as [H _].
    exact H.
Qed.



(** * Further properties: manifests *)

Lemma Contains_names (c : CameraFiles) (file : CameraFilePath) :
  Contains c file = true <-> In (Name file) (map Name c).
Proof.
  rewrite Contains_true, in_map_iff. split.
  - intros (f & Hin & Hn). exists f. auto.
  - intros (f & Hn & Hin). exists f. auto.
Qed.

Lemma Contains_false (c : CameraFiles) (file : CameraFilePath) :
  Contains c file = false <-> ~ In (Name file) (map Name c).
Proof.
  rewrite <- Contains_names. destruct (Contains c file); split; congruence.
Qed.

(** X1: [Contains] answers true exactly when some record of the list has the
    name of the file; the other fields of the file play no role. *)
Theorem Contains_name_iff (c : CameraFiles) (file : CameraFilePath) :
  Contains c file = true <-> In (Name file) (map Name c).
Proof. exact (Contains_names c file). Qed.

(** X2: whatever the two manifests, every record [FindNew] returns is a
    record of the candidate whose name does not occur in the baseline. *)
Theorem FindNew_sound (c files : CameraFiles) (f : CameraFilePath) :
  In f (FindNew c files) -> In f files /\ ~ In (Name f) (map Name c).
Proof.
  unfold FindNew. destruct (Nat.eqb (List.length c) (List.length files)).
  - intros [].
  - rewrite FindNew_loop. simpl. rewrite filter_In, negb_true_iff, Contains_false.
    auto.
Qed.

Lemma FindNew_sound_witness :
  In (sim_frame 2) [sim_frame 1; sim_frame 2]
  /\ ~ In (Name (sim_frame 2)) (map Name [sim_frame 1]).
Proof.
  apply (FindNew_sound [sim_frame 1] [sim_frame 1; sim_frame 2] (sim_frame 2)).
  vm_compute. auto.
Defined.

(** X3: when the two manifests differ in length, [FindNew] returns exactly
    the candidate records whose name does not occur in the baseline, in the
    order of the candidate. *)
Theorem FindNew_differing_lengths (c files : CameraFiles) :
  List.length c <> List.length files ->
  FindNew c files = filter (fun f => negb (Contains c f)) files
  /\ forall f, In f (FindNew c files)
               <-> In f files /\ ~ In (Name f) (map Name c).
Proof.
  intros H. rewrite (FindNew_unequal c files H). split; [reflexivity|].
  intros f. rewrite filter_In, negb_true_iff, Contains_false. tauto.
Qed.

Lemma FindNew_differing_lengths_witness :
  FindNew [sim_frame 1] [sim_frame 1; sim_frame 2]
  = filter (fun f => negb (Contains [sim_frame 1] f)) [sim_frame 1; sim_frame 2]
  /\ forall f, In f (FindNew [sim_frame 1] [sim_frame 1; sim_frame 2])
               <-> In f [sim_frame 1; sim_frame 2]
                   /\ ~ In (Name f) (map Name [sim_frame 1]).
Proof.
  apply (FindNew_differing_lengths [sim_frame 1] [sim_frame 1; sim_frame 2]).
  simpl. lia.
Defined.

(** X4: [LoadCameraFiles] records exactly the entries found three levels
    below the top of the listing (device, container, directory, file) that
    are not directories; files at any other depth are not recorded. *)
Theorem walk_In (storage : list CameraFilePath) (f : CameraFilePath) :
  In f (walk storage)
  <-> exists device container directory,
        In device storage /\ In container (Children device)
        /\ In directory (Children container)
        /\ In f (Children directory) /\ Dir f = false.
Proof.
  unfold walk. rewrite in_flat_map. split.
  - intros (device & Hd & H). rewrite in_flat_map in H.
    destruct H as (container & Hc & H). rewrite in_flat_map in H.
    destruct H as (directory & Hy & H). rewrite filter_In, negb_true_iff in H.
    exists device, container, directory. tauto.
  - intros (device & container & directory & Hd & Hc & Hy & Hf & Hdir).
    exists device. split; [exact Hd|]. rewrite in_flat_map.
    exists container. split; [exact Hc|]. rewrite in_flat_map.
    exists directory. split; [exact Hy|]. rewrite filter_In, negb_true_iff. auto.
Qed.

(** * Further properties: the status line *)

Lemma String_length_append (s1 s2 : string) :
  String.length (s1 ++ s2) = (String.length s1 + String.length s2)%nat.
Proof. induction s1 as [|a s1 IH]; simpl; [reflexivity|]. now rewrite IH. Qed.

Lemma fmt_3d_width (z : Z) : -99 <= z <= 999 -> String.length (fmt_3d z) = 3%nat.
Proof.
  intros H.
  assert (T : forallb (fun i => Nat.eqb (String.length (fmt_3d (Z.of_nat i - 99))) 3)
                      (seq 0 1099) = true) by (vm_compute; reflexivity).
  rewrite forallb_forall in T.
  specialize (T (Z.to_nat (z + 99))).
  rewrite Z2Nat.id in T by lia.
  replace (z + 99 - 99) with z in T by lia.
  apply Nat.eqb_eq, T, in_seq. lia.
Qed.

(** X5: through a countdown from at most 999 seconds the status line of a
    frame keeps the same length, so each line overwrites the previous one
    completely; from 1000 seconds to 999 it gets one character shorter. *)
Theorem Status_width (c : Camera) (frame s1 s2 : Z) :
  (-99 <= s1 <= 999 -> -99 <= s2 <= 999 ->
   String.length (Status c frame s1) = String.length (Status c frame s2))
  /\ String.length (Status c frame 1000)
     = S (String.length (Status c frame 999)).
Proof.
  split.
  - intros H1 H2. unfold Status. destruct (Frames c =? 0);
      repeat rewrite String_length_append;
      rewrite (fmt_3d_width s1 H1), (fmt_3d_width s2 H2); reflexivity.
  - unfold Status. destruct (Frames c =? 0);
      repeat rewrite String_length_append;
      change (String.length (fmt_3d 1000)) with 4%nat;
      change (String.length (fmt_3d 999)) with 3%nat; lia.
Qed.

Lemma Status_width_witness :
  String.length (Status (flags 5 60 "lights" false) 2 60)
  = String.length (Status (flags 5 60 "lights" false) 2 7).
Proof.
  apply (Status_width (flags 5 60 "lights" false) 2 60 7); lia.
Defined.

(** * Further properties: the exposure cycle *)

Lemma created_app (l1 l2 : list Event) :
  created (l1 ++ l2) = (created l1 ++ created l2)%list.
Proof.
  induction l1 as [|e l1 IH]; simpl; [reflexivity|].
  destruct e as [| | | | | | | |p [x|]| | | | | | |]; simpl; rewrite ?IH; reflexivity.
Qed.

Lemma closed_app (l1 l2 : list Event) :
  closed (l1 ++ l2) = (closed l1 ++ closed l2)%list.
Proof.
  induction l1 as [|e l1 IH]; simpl; [reflexivity|].
  destruct e; simpl; rewrite ?IH; reflexivity.
Qed.

Lemma closed_map_EvClose (ps : list string) : closed (map EvClose ps) = ps.
Proof. induction ps as [|p ps IH]; simpl; [reflexivity|]. now rewrite IH. Qed.

Lemma created_map_EvClose (ps : list string) : created (map EvClose ps) = [].
Proof. induction ps as [|p ps IH]; simpl; auto. Qed.

Lemma downloaded_map_EvClose (ps : list string) : downloaded (map EvClose ps) = [].
Proof. induction ps as [|p ps IH]; simpl; auto. Qed.

Lemma shutter_app (b : bool) (l1 l2 : list Event) :
  shutter b (l1 ++ l2) = shutter (shutter b l1) l2.
Proof. apply fold_left_app. Qed.

Lemma shutter_writes_nothing (b : bool) (l : list Event) :
  forallb writes_nothing l = true -> shutter b l = b.
Proof.
  revert b. induction l as [|e l IH]; intros b; simpl; [reflexivity|].
  intros H. apply andb_prop in H. destruct H as [He Hl].
  unfold shutter in *. simpl. rewrite IH by exact Hl.
  destruct e; simpl in *; try discriminate; reflexivity.
Qed.

Section DownloadFacts.

Context {D : Type} (gp : Gphoto2 D).

(** Whatever its outcome, the download loop returns; it closes what it
    created, newest first, before the files that were already open; it
    transfers a prefix of its list, in order; it writes no setting. *)
Lemma download_run (newFiles : list CameraFilePath) :
  forall (opened : list string) (st : St D),
  exists err st' l n,
    download gp newFiles opened st = (Val err, st')
    /\ cam st' = cam st
    /\ trace st' = (trace st ++ l)%list
    /\ closed l = (rev (created l) ++ opened)%list
    /\ downloaded l = firstn n newFiles
    /\ (err = None -> downloaded l = newFiles)
    /\ forallb writes_nothing l = true.
Proof.
  induction newFiles as [|file rest IH]; intros opened st; simpl.
  - unfold run_defers. rewrite bind_emit_all. unfold ret.
    exists None, (MkSt (cam st) (dev st) (trace st ++ map EvClose opened)),
      (map EvClose opened), 0%nat.
    rewrite closed_map_EvClose, created_map_EvClose, downloaded_map_EvClose.
    repeat split. apply forallb_map_ok. reflexivity.
  - unfold run_defers. exec; unfold ret.
    + eexists (Some _), _, (_ :: map EvClose opened), 0%nat.
      split; [reflexivity|]. split; [reflexivity|].
      split; [cbn [trace]; rewrite <- app_assoc; reflexivity|].
      cbn [closed created downloaded].
      rewrite closed_map_EvClose, created_map_EvClose, downloaded_map_EvClose.
      repeat split; try discriminate. simpl. apply forallb_map_ok. reflexivity.
    + eexists (Some _), _, (_ :: _ :: map EvClose (_ :: opened)), 0%nat.
      split; [reflexivity|]. split; [reflexivity|].
      split; [cbn [trace]; rewrite <- !app_assoc; reflexivity|].
      cbn [closed created downloaded].
      rewrite closed_map_EvClose, created_map_EvClose, downloaded_map_EvClose.
      repeat split; try discriminate. simpl. apply forallb_map_ok. reflexivity.
    + match goal with
      | |- context [download gp rest ?o ?s] =>
          destruct (IH o s) as (err & st' & l & n & E & Hc & Ht & Hcl & Hd & Hn & Hw)
      end.
      cbn [cam trace] in Hc, Ht.
      exists err, st', (EvCreate (dest (cam st) file) None
                        :: EvDownload file (dest (cam st) file) false None :: l),
        (S n).
      split; [exact E|]. split; [exact Hc|].
      split; [rewrite Ht, <- !app_assoc; reflexivity|].
      cbn [closed created downloaded firstn rev].
      rewrite Hcl, Hd, <- !app_assoc. simpl.
      repeat split; try (intros He; rewrite <- Hd, (Hn He); reflexivity).
      exact Hw.
Qed.


End DownloadFacts.

(** X6: whatever its outcome, the download loop of [CaptureBulb] transfers
    a prefix of the list of new files, in order, and the whole list when it
    returns [nil]; a failure stops the loop. *)
Theorem download_transfers_prefix {D : Type} (gp : Gphoto2 D)
    (newFiles : list CameraFilePath) (st : St D) :
  exists err st' l n,
    download gp newFiles [] st = (Val err, st')
    /\ trace st' = (trace st ++ l)%list
    /\ downloaded l = firstn n newFiles
    /\ (err = None -> downloaded l = newFiles).
Proof.
  destruct (download_run gp newFiles [] st)
    as (err & st' & l & n & E & _ & Ht & _ & Hd & Hn & _).
  exists err, st', l, n. auto.
Qed.

Lemma closed_map_stdout {A} (g : A -> string) (xs : list A) :
  closed (map (fun x => EvStdout (g x)) xs) = [].
Proof. induction xs; simpl; auto. Qed.

Lemma created_map_stdout {A} (g : A -> string) (xs : list A) :
  created (map (fun x => EvStdout (g x)) xs) = [].
Proof. induction xs; simpl; auto. Qed.

Lemma shutter_map_stdout {A} (b : bool) (g : A -> string) (xs : list A) :
  shutter b (map (fun x => EvStdout (g x)) xs) = b.
Proof. apply shutter_writes_nothing, forallb_map_ok. reflexivity. Qed.

Section CycleRuns.

Context {D : Type} (gp : Gphoto2 D).

Lemma CaptureBulb_run (frame : Z) (st : St D) :
  exists l,
    trace (snd (CaptureBulb gp frame st)) = (trace st ++ l)%list
    /\ closed l = rev (created l)
    /\ (shutter false l = true ->
        exists e l0,
          fst (CaptureBulb gp frame st) = Val (Some e)
          /\ (l = (l0 ++ [EvGetSetting EosRemoteRelease (Some e)])%list
              \/ l = (l0 ++ [EvSet EosRemoteRelease "Release Full" (Some e)])%list)).
Proof.
  unfold CaptureBulb, GetBatteryStatus, SetConfig, reporter, LoadCameraFiles,
    panic, Sleep.
  exec; unfold ret, halt; cbn [fst snd trace].
  all: try match goal with
  | |- context [download gp ?f ?o ?s] =>
      destruct (download_run gp f o s)
        as (err & st' & l' & n & E & _ & Ht & Hcl & _ & _ & Hw);
      rewrite E; cbn [fst snd trace cam] in *; rewrite Ht
  end.
  all: repeat rewrite <- app_assoc.
  all: eexists; (split; [reflexivity|]).
  all: split;
    [ repeat (rewrite closed_app || rewrite created_app);
      rewrite ?closed_map_stdout, ?created_map_stdout;
      cbn [closed created app]; rewrite ?Hcl, ?app_nil_r; reflexivity
    | intros Hs; repeat rewrite shutter_app in Hs;
      rewrite ?shutter_map_stdout in Hs;
      try rewrite (shutter_writes_nothing _ _ Hw) in Hs;
      cbn in Hs; try discriminate Hs ].
  all: eexists _, _; (split; [reflexivity|]); repeat rewrite app_assoc;
    first [left; reflexivity | right; reflexivity].
Qed.

End CycleRuns.

Section CycleShape.

Context {D : Type} (gp : Gphoto2 D).


End CycleShape.



(** X8: whatever the outcome of an exposure cycle (success, error or
    panic), every local file it created has been closed when it ends, in
    the reverse order of creation, and nothing else is closed. *)
Theorem CaptureBulb_closes_created {D : Type} (gp : Gphoto2 D)
    (frame : Z) (st : St D) :
  exists l,
    trace (snd (CaptureBulb gp frame st)) = (trace st ++ l)%list
    /\ closed l = rev (created l).
Proof.
  destruct (CaptureBulb_run gp frame st) as (l & Ht & Hc & _).
  exists l. auto.
Qed.

(** X9: an exposure cycle ends with the shutter open only when the release
    itself failed: the cycle then returns the error of its last entry,
    which is the failed request for the remote-release setting or the
    failed write of "Release Full". *)
Theorem CaptureBulb_shutter_left_open {D : Type} (gp : Gphoto2 D)
    (frame : Z) (st : St D) (l : list Event) :
  trace (snd (CaptureBulb gp frame st)) = (trace st ++ l)%list ->
  shutter false l = true ->
  exists e l0,
    fst (CaptureBulb gp frame st) = Val (Some e)
    /\ (l = (l0 ++ [EvGetSetting EosRemoteRelease (Some e)])%list
        \/ l = (l0 ++ [EvSet EosRemoteRelease "Release Full" (Some e)])%list).
Proof.
  intros Ht Hs.
  destruct (CaptureBulb_run gp frame st) as (l1 & Ht1 & _ & H).
  rewrite Ht in Ht1. apply app_inv_head in Ht1. subst l1.
  exact (H Hs).
Qed.

Lemma CaptureBulb_shutter_left_open_witness :
  let st := start (flags 2 1 "lights" false) (sim_empty true false) in
  let l := trace (snd (CaptureBulb sim_stuck_release 1 st)) in
  exists e l0,
    fst (CaptureBulb sim_stuck_release 1 st) = Val (Some e)
    /\ (l = (l0 ++ [EvGetSetting EosRemoteRelease (Some e)])%list
        \/ l = (l0 ++ [EvSet EosRemoteRelease "Release Full" (Some e)])%list).
Proof.
  intros st l.
  apply (CaptureBulb_shutter_left_open sim_stuck_release 1 st l).
  - reflexivity.
  - vm_compute. reflexivity.
Defined.

(** X10: when the battery level the camera answers with is not a string,
    the type assertion of [GetBatteryStatus] panics: the cycle ends the
    process with status 2 right after the reading, before the shutter is
    armed. *)
Theorem CaptureBulb_battery_not_string {D : Type} (gp : Gphoto2 D)
    (frame : Z) (st : St D) (d1 d2 : D) :
  Camera_GetSetting gp BatteryLevel (dev st) = (None, d1) ->
  Widget_Get gp BatteryLevel d1 = (inr VOther, d2) ->
  exists msg,
    CaptureBulb gp frame st
    = (Halt 2,
       MkSt (cam st) d2
            (trace st ++ [EvCaptureBulb frame;
                          EvGetSetting BatteryLevel None;
                          EvGet BatteryLevel (inr VOther);
                          EvStderr msg])).
Proof.
  intros H1 H2.
  unfold CaptureBulb, GetBatteryStatus, panic.
  rewrite bind_emit, bind_assoc, bind_call. cbn [cam dev trace].
  rewrite H1. cbn [fst snd].
  rewrite bind_assoc, bind_call. cbn [cam dev trace].
  rewrite H2. cbn [fst snd].
  rewrite bind_assoc, bind_emit, bind_stop. cbn [cam dev trace].
  eexists. repeat rewrite <- app_assoc. reflexivity.
Qed.

Lemma CaptureBulb_battery_not_string_witness :
  let st := start (flags 2 1 "lights" false) (sim_empty true false) in
  exists msg,
    CaptureBulb sim_odd_battery 1 st
    = (Halt 2,
       MkSt (cam st) (sim_empty true false)
            (trace st ++ [EvCaptureBulb 1;
                          EvGetSetting BatteryLevel None;
                          EvGet BatteryLevel (inr VOther);
                          EvStderr msg])).
Proof.
  intros st.
  apply (CaptureBulb_battery_not_string sim_odd_battery 1 st
           (sim_empty true false) (sim_empty true false)); reflexivity.
Defined.

(** * Further properties: initialisation *)

Section InitShape.

Context {D : Type} (gp : Gphoto2 D).

Lemma Init_nil (name : string) (st : St D) :
  match Init gp name st with
  | (Val None, st') =>
      exists model lens storage battery,
        cam st' = set_Battery battery
                    (set_Files (Files (cam st) ++ walk storage)%list
                       (set_Lens lens (set_Model model (cam st))))
        /\ trace st'
           = (trace st ++ Init_events gp (cam st) name model lens storage battery)%list
  | _ => True
  end.
Proof.
  unfold Init, Init_SetConfig, Init_GetString, GetBatteryStatus, SetConfig,
    LoadCameraFiles, panic, Printf.
  repeat (exec;
          try match goal with
              | |- context [match ?x with VString _ => _ | VOther => _ end] =>
                  is_var x; destruct x
              end);
    unfold ret, halt; auto.
  do 4 eexists. split; [reflexivity|].
  unfold Init_events. repeat rewrite <- app_assoc. reflexivity.
Qed.

End InitShape.

(** X11: a successful [Init] has connected, read the model and the lens,
    listed the files, then written, in this order, focus mode "Manual", the
    configured shutter speed, the ISO in decimal, white balance "Daylight",
    image format "RAW", the formatted aperture and capture target "Memory
    card", and read the battery level.  It leaves the struct with the model,
    the lens and the battery level it read and with the listed files
    appended to [Files]. *)
Theorem Init_success {D : Type} (gp : Gphoto2 D) (name : string) (st st' : St D) :
  Init gp name st = (Val None, st') ->
  exists model lens storage battery,
    cam st' = set_Battery battery
                (set_Files (Files (cam st) ++ walk storage)%list
                   (set_Lens lens (set_Model model (cam st))))
    /\ trace st'
       = (trace st ++ Init_events gp (cam st) name model lens storage battery)%list.
Proof.
  intros H. pose proof (Init_nil gp name st) as P. rewrite H in P. exact P.
Qed.

Lemma Init_success_witness :
  let st := start (flags 2 1 "lights" false) (sim_empty true false) in
  let st' := snd (Init sim "" st) in
  exists model lens storage battery,
    cam st' = set_Battery battery
                (set_Files (Files (cam st) ++ walk storage)%list
                   (set_Lens lens (set_Model model (cam st))))
    /\ trace st'
       = (trace st ++ Init_events sim (cam st) "" model lens storage battery)%list.
Proof.
  intros st st'. apply (Init_success sim "" st st'). vm_compute. reflexivity.
Defined.

(** * Further properties: the session *)

Lemma same_config_refl (c : Camera) : same_config c c.
Proof. unfold same_config. repeat split. Qed.

Lemma same_config_trans (a b c : Camera) :
  same_config a b -> same_config b c -> same_config a c.
Proof. unfold same_config. intuition congruence. Qed.

(** X12: whatever happens in a run of [main], the fields that come from the
    command line (ISO, aperture, shutter, duration, frame count, target,
    kind, keep) keep their values, and so does [Current], which no method
    assigns. *)
Theorem main_keeps_config {D : Type} (gp : Gphoto2 D) (fuel : nat)
    (name : string) (st : St D) :
  same_config (cam st) (cam (snd (main gp fuel name st))).
Proof.
  apply (Post_main gp any_event same_config same_config_refl same_config_trans);
    try (intros; unfold same_config; repeat split); reflexivity.
Qed.

(** X13: whatever happens in a run of the capture loop, it assigns to
    [Battery] only: every other field of the struct, the baseline manifest
    included, is as it was before the loop. *)
Theorem CaptureLoop_assigns_Battery_only {D : Type} (gp : Gphoto2 D)
    (fuel : nat) (st : St D) :
  cam (snd (CaptureLoop gp fuel st))
  = set_Battery (Battery (cam (snd (CaptureLoop gp fuel st)))) (cam st).
Proof.
  apply (Post_CaptureLoop_for gp any_event same_but_Battery
           same_but_Battery_refl same_but_Battery_trans);
    try (intros; reflexivity).
Qed.

Section SessionErrors.

Context {D : Type} (gp : Gphoto2 D).

Lemma main_after_checks (fuel : nat) (name : string) (st : St D) :
  Kind (cam st) = "lights" \/ Kind (cam st) = "darks" ->
  wrap (Frames (cam st) * Duration (cam st)) <= 28800 ->
  main gp fuel name st
  = bind (Init gp name)
      (fun err =>
         match err with
         | Some e => log_Fatal e
         | None =>
             model <- gets Model ;;
             Printf ("Camera Model:  " ++ model ++ LF) ;;
             lens <- gets Lens ;;
             Printf ("Lens Model:    " ++ lens ++ LF) ;;
             files <- gets Files ;;
             Printf ("SD Card Files: " ++ Itoa (Z.of_nat (List.length files)) ++ LF) ;;
             battery <- gets Battery ;;
             Printf ("Battery Level: " ++ battery ++ LF ++ LF) ;;
             emit EvNotify ;;
             err <- CaptureLoop gp fuel ;;
             match err with
             | Some e => log_Fatal e
             | None =>
                 err <- Close gp ;;
                 match err with
                 | Some e => log_Fatal e
                 | None => ret tt
                 end
             end
         end) st.
Proof.
  intros HK HT. unfold main. rewrite bind_gets.
  replace (negb (Kind (cam st) =? "lights")%string
           && negb (Kind (cam st) =? "darks")%string) with false
    by (destruct HK as [-> | ->]; reflexivity).
  rewrite bind_gets.
  replace (wrap (Frames (cam st) * Duration (cam st)) >? 28800) with false
    by (symmetry; rewrite Z.gtb_ltb; apply Z.ltb_ge; lia).
  reflexivity.
Qed.

Lemma main_rejected (fuel : nat) (name : string) (st : St D) :
  ~ ((Kind (cam st) = "lights" \/ Kind (cam st) = "darks")
     /\ wrap (Frames (cam st) * Duration (cam st)) <= 28800) ->
  exists msg,
    main gp fuel name st
    = (Val tt, MkSt (cam st) (dev st) (trace st ++ [EvStdout msg])).
Proof.
  intros H. unfold main. rewrite bind_gets.
  destruct (negb (Kind (cam st) =? "lights")%string
            && negb (Kind (cam st) =? "darks")%string) eqn:HK.
  - unfold Printf. rewrite bind_emit. eexists. reflexivity.
  - rewrite bind_gets.
    destruct (wrap (Frames (cam st) * Duration (cam st)) >? 28800) eqn:HT.
    + unfold Printf. rewrite bind_emit. eexists. reflexivity.
    + exfalso. apply H. split.
      * apply andb_false_iff in HK.
        destruct HK as [HK|HK]; apply negb_false_iff, String.eqb_eq in HK; auto.
      * rewrite Z.gtb_ltb in HT. apply Z.ltb_ge in HT. exact HT.
Qed.

Lemma main_accepted (fuel : nat) (name : string) (st : St D) :
  Kind (cam st) = "lights" \/ Kind (cam st) = "darks" ->
  wrap (Frames (cam st) * Duration (cam st)) <= 28800 ->
  exists r l,
    trace (snd (main gp fuel name st)) = (trace st ++ EvNewCamera name r :: l)%list.
Proof.
  intros HK HT. rewrite (main_after_checks fuel name st HK HT).
  unfold Init. rewrite bind_assoc, bind_call.
  set (r := fst (gphoto2_NewCamera gp name (dev st))).
  match goal with
  | |- context [snd (?m ?s)] =>
      assert (P : Post any_event anyC m); [|specialize (P s)]
  end.
  { assert (R : forall c, anyC c c) by (intros; exact Logic.I).
    assert (T : forall a b c, anyC a b -> anyC b c -> anyC a c)
      by (intros; exact Logic.I).
    assert (A : forall c c', anyC c c') by (intros; exact Logic.I).
    assert (E : forall e, regular e = true -> any_event e = true) by reflexivity.
    assert (Q : forall e, quiet e = true -> any_event e = true) by reflexivity.
    assert (G : forall frame, any_event (EvCaptureBulb frame) = true)
      by reflexivity.
    pose proof (Post_SetConfig gp any_event anyC R T Q).
    pose proof (Post_GetBatteryStatus gp any_event anyC R T Q).
    pose proof (Post_LoadCameraFiles gp any_event anyC R T E).
    pose proof (Post_Close gp any_event anyC R T E).
    pose proof (Post_CaptureLoop_for gp any_event anyC R T
                  (fun v c => A c _) E G).
    unfold Init_SetConfig, Init_GetString, CaptureLoop.
    post E. }
  destruct P as [(l & El & _) _]. exists r, l.
  rewrite El. simpl. rewrite <- app_assoc. reflexivity.
Qed.

Lemma CaptureLoop_for_unbounded (fuel : nat) :
  forall (frame : Z) (st : St D),
    Frames (cam st) = 0 ->
    fst (CaptureLoop_for gp fuel frame st) <> Val None.
Proof.
  induction fuel as [|fuel IH]; intros frame st HF;
    rewrite CaptureLoop_for_eq, bind_gets, HF; cbn [Z.eqb orb].
  - discriminate.
  - unfold bind.
    pose proof (CaptureBulb_Frames gp (wrap (frame + 1)) st) as HF1.
    destruct (CaptureBulb gp (wrap (frame + 1)) st) as [[[e|]| |] st1];
      simpl in *; try discriminate.
    apply IH. congruence.
Qed.

End SessionErrors.

(** X14: [main] contacts the camera exactly when the kind is "lights" or
    "darks" and the product frames times duration, as computed in [int],
    does not exceed 28800; otherwise its only effect is one message on
    standard output. *)
Theorem main_contacts_camera_iff {D : Type} (gp : Gphoto2 D) (fuel : nat)
    (name : string) (st : St D) :
  ((Kind (cam st) = "lights" \/ Kind (cam st) = "darks")
   /\ wrap (Frames (cam st) * Duration (cam st)) <= 28800
   <-> exists r l,
         trace (snd (main gp fuel name st))
         = (trace st ++ EvNewCamera name r :: l)%list)
  /\ (~ ((Kind (cam st) = "lights" \/ Kind (cam st) = "darks")
         /\ wrap (Frames (cam st) * Duration (cam st)) <= 28800) ->
      exists msg,
        main gp fuel name st
        = (Val tt, MkSt (cam st) (dev st) (trace st ++ [EvStdout msg]))).
Proof.
  split; [split|].
  - intros [HK HT]. apply main_accepted; assumption.
  - intros (r & l & Ht).
    destruct (Z_le_gt_dec (wrap (Frames (cam st) * Duration (cam st))) 28800)
      as [HT|HT].
    + destruct (string_dec (Kind (cam st)) "lights") as [HK|HK]; [auto|].
      destruct (string_dec (Kind (cam st)) "darks") as [HK'|HK']; [auto|].
      exfalso.
      destruct (main_rejected gp fuel name st) as (msg & E); [tauto|].
      rewrite E in Ht. simpl in Ht. apply app_inv_head in Ht. discriminate.
    + exfalso.
      destruct (main_rejected gp fuel name st) as (msg & E); [lia|].
      rewrite E in Ht. simpl in Ht. apply app_inv_head in Ht. discriminate.
  - apply main_rejected.
Qed.

Lemma main_contacts_camera_iff_witness :
  (exists r l,
     trace (snd (main sim 0 ""
       (start (flags 0 100000 "lights" false) (sim_empty true false))))
     = ([] ++ EvNewCamera "" r :: l)%list)
  /\ exists msg,
       main sim 1 "" (start (flags 10 3600 "darks" false) (sim_empty true false))
       = (Val tt, MkSt (flags 10 3600 "darks" false) (sim_empty true false)
                       ([] ++ [EvStdout msg])).
Proof.
  split.
  - destruct (main_contacts_camera_iff sim 0 ""
                (start (flags 0 100000 "lights" false) (sim_empty true false)))
      as [[H _] _].
    apply H. split; [left; reflexivity | vm_compute; discriminate].
  - destruct (main_contacts_camera_iff sim 1 ""
                (start (flags 10 3600 "darks" false) (sim_empty true false)))
      as [_ H].
    apply H. intros [_ H']. vm_compute in H'. apply H'. reflexivity.
Defined.

(** X15: when [Init] fails, [main] reports the error on standard error and
    ends the process with status 1, without starting a cycle and without
    closing the camera. *)
Theorem main_Init_failure {D : Type} (gp : Gphoto2 D) (fuel : nat)
    (name : string) (st st1 : St D) (e : error) :
  Kind (cam st) = "lights" \/ Kind (cam st) = "darks" ->
  wrap (Frames (cam st) * Duration (cam st)) <= 28800 ->
  Init gp name st = (Val (Some e), st1) ->
  main gp fuel name st
  = (Halt 1, MkSt (cam st1) (dev st1) (trace st1 ++ [EvStderr e])).
Proof.
  intros HK HT HI. rewrite (main_after_checks gp fuel name st HK HT).
  rewrite (bind_val _ _ _ _ _ HI). unfold log_Fatal, os_Exit.
  rewrite bind_emit. reflexivity.
Qed.

Lemma main_Init_failure_witness :
  main sim_absent 2 "" (start (flags 2 1 "lights" false) (sim_empty true false))
  = (Halt 1,
     MkSt (flags 2 1 "lights" false) (sim_empty true false)
          ([EvNewCamera "" (Some "no camera found")]
           ++ [EvStderr "no camera found"])).
Proof.
  apply (main_Init_failure sim_absent 2 ""
           (start (flags 2 1 "lights" false) (sim_empty true false))
           (MkSt (flags 2 1 "lights" false) (sim_empty true false)
                 [EvNewCamera "" (Some "no camera found")])
           "no camera found").
  - left. reflexivity.
  - vm_compute. discriminate.
  - reflexivity.
Defined.

(** X16: with a target frame count of 0 the capture loop never returns
    [nil]: it ends only through the error of a cycle or the end of the
    process. *)
Theorem CaptureLoop_unbounded_never_completes {D : Type} (gp : Gphoto2 D)
    (fuel : nat) (st : St D) :
  Frames (cam st) = 0 -> fst (CaptureLoop gp fuel st) <> Val None.
Proof. intros H. apply CaptureLoop_for_unbounded, H. Qed.

Lemma CaptureLoop_unbounded_never_completes_witness :
  fst (CaptureLoop sim 3 (start (flags 0 1 "lights" false) (sim_empty true false)))
  <> Val None.
Proof.
  apply (CaptureLoop_unbounded_never_completes sim 3
           (start (flags 0 1 "lights" false) (sim_empty true false))).
  reflexivity.
Defined.

(** X17: with a negative target frame count the capture loop runs no cycle:
    it prints its completion message and returns [nil] at once. *)
Theorem CaptureLoop_negative_target {D : Type} (gp : Gphoto2 D)
    (fuel : nat) (st : St D) :
  Frames (cam st) < 0 ->
  CaptureLoop gp fuel st
  = (Val None,
     MkSt (cam st) (dev st)
          (trace st ++ [EvStdout (LF ++ LF ++ "Frames capture complete." ++ LF)])).
Proof.
  intros H. unfold CaptureLoop. rewrite CaptureLoop_for_eq, bind_gets.
  replace ((Frames (cam st) =? 0) || (0 <? Frames (cam st))) with false
    by (symmetry; apply orb_false_iff; split;
        [apply Z.eqb_neq | apply Z.ltb_ge]; lia).
  unfold Printf. rewrite bind_emit. reflexivity.
Qed.

Lemma CaptureLoop_negative_target_witness :
  CaptureLoop sim 0 (start (flags (-3) 60 "lights" false) (sim_empty true false))
  = (Val None,
     MkSt (flags (-3) 60 "lights" false) (sim_empty true false)
          ([] ++ [EvStdout (LF ++ LF ++ "Frames capture complete." ++ LF)])).
Proof.
  apply (CaptureLoop_negative_target sim 0
           (start (flags (-3) 60 "lights" false) (sim_empty true false))).
  simpl. lia.
Defined.

Section FailingCycle.

Context {D : Type} (gp : Gphoto2 D).
Variable N k : Z.
Variable e : error.
Variable I : Z -> Camera -> D -> Prop.
Hypothesis k_pos : 1 <= k.
Hypothesis k_int : k <= max_int.
Hypothesis k_reached : N = 0 \/ k <= N.
Hypothesis cycles_before :
  forall j c d tr, 1 <= j < k -> I j c d ->
    exists st', CaptureBulb gp j (MkSt c d tr) = (Val None, st')
                /\ I (j + 1) (cam st') (dev st').
Hypothesis cycle_fails :
  forall c d tr, I k c d ->
    exists st', CaptureBulb gp k (MkSt c d tr) = (Val (Some e), st').

Lemma CaptureLoop_for_fails (n : nat) :
  forall (fuel : nat) (frame : Z) (st : St D),
    Z.of_nat n = k - 1 - frame -> 0 <= frame -> (n < fuel)%nat ->
    Frames (cam st) = N -> I (frame + 1) (cam st) (dev st) ->
    exists st',
      CaptureLoop_for gp fuel frame st = (Val (Some e), st')
      /\ calls (trace st')
         = (calls (trace st)
              ++ map (fun i => frame + Z.of_nat i + 1) (seq 0 (S n)))%list.
Proof.
  induction n as [|n IH]; intros fuel frame st Hn Hf Hfuel HF HI;
    rewrite CaptureLoop_for_eq, bind_gets, HF;
    (replace ((N =? 0) || (frame <? N)) with true
      by (symmetry; apply orb_true_iff; destruct k_reached as [-> | Hk];
          [left; reflexivity | right; apply Z.ltb_lt; lia]));
    (destruct fuel as [|fuel]; [lia|]);
    rewrite (wrap_small (frame + 1)) by (unfold in_int, min_int, max_int in *; lia);
    destruct st as [c d tr]; simpl in HF, HI.
  - replace (frame + 1) with k in * by lia.
    destruct (cycle_fails c d tr HI) as (st1 & E1).
    rewrite (bind_val _ _ _ _ _ E1).
    pose proof (CaptureBulb_calls gp k (MkSt c d tr)) as Hcalls.
    rewrite E1 in Hcalls. simpl in Hcalls.
    exists st1. split; [reflexivity|]. rewrite Hcalls. simpl.
    do 2 f_equal. lia.
  - destruct (cycles_before (frame + 1) c d tr) as (st1 & E1 & I1); [lia|exact HI|].
    rewrite (bind_val _ _ _ _ _ E1).
    pose proof (CaptureBulb_calls gp (frame + 1) (MkSt c d tr)) as Hcalls.
    pose proof (CaptureBulb_Frames gp (frame + 1) (MkSt c d tr)) as HF1.
    rewrite E1 in Hcalls, HF1. simpl in Hcalls, HF1.
    destruct (IH fuel (frame + 1) st1) as (st' & E' & C');
      try lia; try congruence; auto.
    exists st'. split; [exact E'|].
    rewrite C', Hcalls, (frames_from_shift frame (S n)), <- app_assoc. reflexivity.
Qed.

Lemma CaptureLoop_fails (fuel : nat) (st : St D) :
  (Z.to_nat k <= fuel)%nat -> Frames (cam st) = N -> I 1 (cam st) (dev st) ->
  exists st',
    CaptureLoop gp fuel st = (Val (Some e), st')
    /\ calls (trace st') = (calls (trace st) ++ frames_upto k)%list.
Proof.
  intros Hfuel HF HI. unfold CaptureLoop, frames_upto.
  destruct (CaptureLoop_for_fails (Z.to_nat (k - 1)) fuel 0 st)
    as (st' & E & C); auto; try lia.
  exists st'. split; [exact E|]. rewrite C.
  replace (S (Z.to_nat (k - 1))) with (Z.to_nat k) by lia. reflexivity.
Qed.

Lemma main_fails (fuel : nat) (name : string) (st0 st1 : St D) :
  (Z.to_nat k <= fuel)%nat -> Frames (cam st0) = N ->
  Kind (cam st0) = "lights" \/ Kind (cam st0) = "darks" ->
  wrap (N * Duration (cam st0)) <= 28800 ->
  Init gp name st0 = (Val None, st1) ->
  I 1 (cam st1) (dev st1) ->
  exists st3,
    CaptureLoop gp fuel (session_start st1) = (Val (Some e), st3)
    /\ main gp fuel name st0
       = (Halt 1, MkSt (cam st3) (dev st3) (trace st3 ++ [EvStderr e]))
    /\ calls (trace st3) = (calls (trace st0) ++ frames_upto k)%list.
Proof.
  intros Hfuel HF HK HT HInit HI.
  pose proof (Init_regular gp name st0) as HS. rewrite HInit in HS. simpl in HS.
  assert (HF1 : Frames (cam st1) = N) by (destruct HS as [_ HS]; congruence).
  apply steps_calls in HS.
  rewrite (main_after_checks gp fuel name st0 HK) by (rewrite HF; exact HT).
  rewrite (bind_val _ _ _ _ _ HInit). unfold Printf.
  repeat (rewrite bind_gets || rewrite bind_emit). cbn [cam dev trace].
  match goal with
  | |- context [bind (CaptureLoop gp fuel) _ ?s] =>
      replace s with (session_start st1)
        by (unfold session_start, info_events;
            repeat rewrite <- app_assoc; reflexivity)
  end.
  destruct (CaptureLoop_fails fuel (session_start st1)) as (st3 & E3 & C3); auto.
  rewrite (bind_val _ _ _ _ _ E3). unfold log_Fatal, os_Exit.
  rewrite bind_emit. exists st3. split; [exact E3|]. split; [reflexivity|].
  rewrite C3. unfold session_start, info_events. cbn [trace].
  rewrite calls_app. simpl. rewrite app_nil_r, HS. reflexivity.
Qed.

End FailingCycle.

(** X18: the capture loop stops at the first exposure cycle that fails: if
    cycles 1 to k - 1 succeed and cycle k returns an error, the loop has
    invoked the cycle with indices 1 through k and returns that error; and
    [main], which started the loop after a successful [Init] and its lines
    about the camera, ends in the state the loop ended in plus that error
    on standard error, with status 1: nothing is done after the loop, the
    camera is not closed.  The successes and the failure are given by an
    invariant [I j] of the struct and the world before cycle [j]. *)
Theorem CaptureLoop_stops_at_first_failure {D : Type} (gp : Gphoto2 D)
    (I : Z -> Camera -> D -> Prop) (N k : Z) (e : error) (fuel : nat) :
  1 <= k -> k <= max_int -> N = 0 \/ k <= N -> (Z.to_nat k <= fuel)%nat ->
  (forall j c d tr, 1 <= j < k -> I j c d ->
     exists st', CaptureBulb gp j (MkSt c d tr) = (Val None, st')
                 /\ I (j + 1) (cam st') (dev st')) ->
  (forall c d tr, I k c d ->
     exists st', CaptureBulb gp k (MkSt c d tr) = (Val (Some e), st')) ->
  (forall st, Frames (cam st) = N -> I 1 (cam st) (dev st) ->
     exists st',
       CaptureLoop gp fuel st = (Val (Some e), st')
       /\ calls (trace st') = (calls (trace st) ++ frames_upto k)%list)
  /\ (forall name st0 st1,
        Frames (cam st0) = N ->
        Kind (cam st0) = "lights" \/ Kind (cam st0) = "darks" ->
        wrap (N * Duration (cam st0)) <= 28800 ->
        Init gp name st0 = (Val None, st1) ->
        I 1 (cam st1) (dev st1) ->
        exists st3,
          CaptureLoop gp fuel (session_start st1) = (Val (Some e), st3)
          /\ main gp fuel name st0
             = (Halt 1, MkSt (cam st3) (dev st3) (trace st3 ++ [EvStderr e]))
          /\ calls (trace st3) = (calls (trace st0) ++ frames_upto k)%list).
Proof.
  intros Hk Hint Hreach Hfuel Hbefore Hfail. split.
  - intros st HF HI.
    apply (CaptureLoop_fails gp N k e I Hk Hint Hreach Hbefore Hfail fuel st);
      assumption.
  - intros name st0 st1 HF HK HT HInit HI.
    apply (main_fails gp N k e I Hk Hint Hreach Hbefore Hfail fuel name st0 st1);
      assumption.
Qed.

Lemma CaptureLoop_stops_at_first_failure_witness :
  let st0 := start (flags 2 1 "lights" false) (sim_empty true false) in
  let st1 := snd (Init sim_wears_out "" st0) in
  (exists st',
     CaptureLoop sim_wears_out 2 st1 = (Val (Some "busy"), st')
     /\ calls (trace st') = (calls (trace st1) ++ frames_upto 2)%list)
  /\ (exists st3,
        CaptureLoop sim_wears_out 2 (session_start st1) = (Val (Some "busy"), st3)
        /\ main sim_wears_out 2 "" st0
           = (Halt 1, MkSt (cam st3) (dev st3) (trace st3 ++ [EvStderr "busy"]))
        /\ calls (trace st3) = (calls (trace st0) ++ frames_upto 2)%list).
Proof.
  intros st0 st1.
  destruct (CaptureLoop_stops_at_first_failure sim_wears_out sim_session
              2 2 "busy" 2) as [Hloop Hmain].
  - lia.
  - unfold max_int. lia.
  - right. lia.
  - simpl. lia.
  - intros j c d tr Hj [-> ->].
    assert (j = 1) by lia. subst j.
    match goal with
    | |- exists st', ?m = _ /\ _ => exists (snd m)
    end; split; vm_compute; auto.
  - intros c d tr [-> ->].
    match goal with
    | |- exists st', ?m = _ => exists (snd m)
    end. vm_compute. reflexivity.
  - split.
    + apply Hloop; vm_compute; auto.
    + apply (Hmain "" st0 st1).
      * reflexivity.
      * left. reflexivity.
      * vm_compute. discriminate.
      * vm_compute. reflexivity.
      * vm_compute. auto.
Defined.

(** * Further properties: composition *)

Lemma filter_known (c files : CameraFiles) :
  (forall f, In f files -> In (Name f) (map Name c)) ->
  filter (fun f => negb (Contains c f)) files = [].
Proof.
  intros H. induction files as [|f files IH]; simpl; [reflexivity|].
  assert (E : Contains c f = true) by (apply Contains_names, H; simpl; auto).
  rewrite E. simpl. apply IH. intros g Hg. apply H. simpl. auto.
Qed.

Lemma filter_unknown (c files : CameraFiles) :
  (forall f, In f files -> ~ In (Name f) (map Name c)) ->
  filter (fun f => negb (Contains c f)) files = files.
Proof.
  intros H. induction files as [|f files IH]; simpl; [reflexivity|].
  assert (E : Contains c f = false) by (apply Contains_false, H; simpl; auto).
  rewrite E. simpl. f_equal. apply IH. intros g Hg. apply H. simpl. auto.
Qed.

(** X19: when the candidate is the baseline followed by at least one file
    and the files that follow all have names the baseline does not contain,
    [FindNew] returns exactly the files that follow. *)
Theorem FindNew_appended (c new : CameraFiles) :
  new <> [] ->
  (forall f, In f new -> ~ In (Name f) (map Name c)) ->
  FindNew c (c ++ new)%list = new.
Proof.
  intros Hne Hnew.
  rewrite FindNew_unequal.
  - rewrite filter_app, filter_known, (filter_unknown c new Hnew); [reflexivity|].
    intros f Hf. apply in_map. exact Hf.
  - rewrite length_app. destruct new; [contradiction|]. simpl. lia.
Qed.

Lemma FindNew_appended_witness :
  FindNew [sim_frame 1; sim_frame 2]
          ([sim_frame 1; sim_frame 2] ++ [sim_frame 3])%list
  = [sim_frame 3].
Proof.
  apply (FindNew_appended [sim_frame 1; sim_frame 2] [sim_frame 3]).
  - discriminate.
  - intros f [<-|[]]. vm_compute. intros [H|[H|[]]]; discriminate.
Defined.

Section Indices.

Context {D : Type} (gp : Gphoto2 D).

Lemma CaptureLoop_for_consecutive (fuel : nat) :
  forall (frame : Z) (st : St D),
    0 <= frame -> frame + Z.of_nat fuel <= max_int ->
    exists m,
      (m <= fuel)%nat
      /\ calls (trace (snd (CaptureLoop_for gp fuel frame st)))
         = (calls (trace st)
              ++ map (fun i => frame + Z.of_nat i + 1) (seq 0 m))%list.
Proof.
  induction fuel as [|fuel IH]; intros frame st Hf Hmax;
    rewrite CaptureLoop_for_eq, bind_gets;
    destruct ((Frames (cam st) =? 0) || (frame <? Frames (cam st))).
  - exists 0%nat. simpl. rewrite app_nil_r. split; [lia|reflexivity].
  - exists 0%nat. unfold Printf. rewrite bind_emit. simpl.
    rewrite calls_app. simpl. rewrite !app_nil_r. split; [lia|reflexivity].
  - rewrite (wrap_small (frame + 1)) by (unfold in_int, min_int, max_int in *; lia).
    unfold bind.
    pose proof (CaptureBulb_calls gp (frame + 1) st) as Hcalls.
    destruct (CaptureBulb gp (frame + 1) st) as [[[e|]| |] st1]; simpl in *.
    + exists 1%nat. split; [lia|]. rewrite Hcalls. f_equal.
      cbn [seq map Z.of_nat]. f_equal. lia.
    + destruct (IH (frame + 1) st1) as (m & Hm & C); try lia.
      exists (S m). split; [lia|].
      rewrite C, Hcalls, (frames_from_shift frame m), <- app_assoc. reflexivity.
    + exists 1%nat. split; [lia|]. rewrite Hcalls. f_equal.
      cbn [seq map Z.of_nat]. f_equal. lia.
    + exists 1%nat. split; [lia|]. rewrite Hcalls. f_equal.
      cbn [seq map Z.of_nat]. f_equal. lia.
  - exists 0%nat. unfold Printf. rewrite bind_emit. simpl.
    rewrite calls_app. simpl. rewrite !app_nil_r. split; [lia|reflexivity].
Qed.

End Indices.

(** X20: in every run of the capture loop, bounded or not and however it
    ends, the exposure cycle is invoked with consecutive frame indices
    starting at 1: no index is skipped or repeated (as long as the indices
    stay within [int]). *)
Theorem CaptureLoop_consecutive_indices {D : Type} (gp : Gphoto2 D)
    (fuel : nat) (st : St D) :
  Z.of_nat fuel <= max_int ->
  exists m,
    (m <= fuel)%nat
    /\ calls (trace (snd (CaptureLoop gp fuel st)))
       = (calls (trace st) ++ frames_upto (Z.of_nat m))%list.
Proof.
  intros H. unfold CaptureLoop, frames_upto.
  destruct (CaptureLoop_for_consecutive gp fuel 0 st) as (m & Hm & C); try lia.
  exists m. split; [exact Hm|]. rewrite C, Nat2Z.id. reflexivity.
Qed.

Lemma CaptureLoop_consecutive_indices_witness :
  exists m,
    (m <= 4)%nat
    /\ calls (trace (snd (CaptureLoop sim 4
                (start (flags 0 1 "lights" false) (sim_empty true false)))))
       = ([] ++ frames_upto (Z.of_nat m))%list.
Proof.
  apply (CaptureLoop_consecutive_indices sim 4
           (start (flags 0 1 "lights" false) (sim_empty true false))).
  unfold max_int. simpl. lia.
Defined.
